(** * near-donate-as: the donation contract, embedded and verified

    A shallow embedding of [src/donate/assembly/index.ts] (class [Contract])
    together with the properties of its two confirmation flows:
    donation ([send_donation] / [on_donation_sent]) and withdrawal
    ([withdraw_donations] / [on_donations_withdrawn]).

    The host's key-value [storage] is a finite map from string keys to
    stored values, the [PersistentSet] of donations is an insertion-ordered
    list without repetition, [u128] amounts are integers below 2^128 with
    the overflow behaviour of their arithmetic written out, and a contract
    method is a function from the
    state before the call to either the state after it (with the logs and
    promises it emitted) or an abort. *)

From Stdlib Require Import ZArith String Ascii List Lia.
From stdpp Require Import base decidable option list gmap strings pretty.

Open Scope string_scope.
Open Scope Z_scope.

(** ** Amounts: the [u128] of near-sdk-as

    [add] and [sub] are the 128-bit operations of the base class, the
    result modulo 2^128. The class the contract imports runs a guard in
    front of them and throws where the guard fires: for [add] see
    [u128_add] below; the guard of [sub] fires on a subtrahend above the
    minuend, which neither subtraction of the contract can reach on
    [u128] values ([withdraw_donations] has checked the amount against
    the balance, and the fee of [send_donation] is a quotient of the
    deposit). *)

Module u128.

Definition modulus : Z := 2 ^ 128.

Definition in_range (a : Z) : Prop := 0 <= a < modulus.

Definition wrap (a : Z) : Z := a mod modulus.

Definition Zero : Z := 0.

Definition add (a b : Z) : Z := wrap (a + b).

Definition sub (a b : Z) : Z := wrap (a - b).

(** [u128.div] throws on a zero divisor: [None]. *)
Definition div (a b : Z) : option Z :=
  if b =? 0 then None else Some (a / b).

Definition ge (a b : Z) : bool := b <=? a.

Definition le (a b : Z) : bool := a <=? b.

End u128.

(** ** Data model *)

Definition AccountId := string.
Definition Amount := Z.

(** Modelled from the spec: the [Donation] class of [./models], built in
    the source as [new Donation(donor, amount, timestamp)]; the spec gives
    it as [{donor: AccountId, amount: Amount, timestamp: u64}]. *)
Record Donation : Type := mkDonation {
  donor : AccountId;
  amount : Amount;
  timestamp : Z
}.

#[global] Instance Donation_eq_dec : EqDecision Donation.
Proof. solve_decision. Defined.

(** What a storage slot holds: the owner's account name or a [u128]. *)
Inductive value : Type :=
| VString (s : string)
| VU128 (a : Z).

(** The state the contract persists: the key-value [storage] and the
    elements of [donations], in insertion order. *)
Record State : Type := mkState {
  storage : gmap string value;
  donations : list Donation
}.

(** [context] of one invocation; [promiseResults] are the status codes
    that [ContractPromise.getResults()] reports to a callback. *)
Record Context : Type := mkContext {
  attachedDeposit : Amount;
  predecessor : AccountId;
  contractName : AccountId;
  blockTimestamp : Z;
  promiseResults : list Z
}.

(** Arguments serialised into a scheduled function call. *)
Inductive Args : Type :=
| EmptyArgs
| DonationSentArgs (amount : Amount)
| DonationsWithdrawnArgs (amount : Amount).

Inductive Action : Type :=
| function_call (method : string) (args : Args) (deposit : Amount) (gas : Z)
| transfer (amount : Amount).

(** What an invocation emits besides its state change. [PromiseCreate] is
    [ContractPromiseBatch.create(receiver).<action>]; [PromiseThen] is
    [promise.then(receiver).<action>], run once the promise emitted just
    before it has settled. *)
Inductive effect : Type :=
| Log (msg : string)
| PromiseCreate (receiver : AccountId) (act : Action)
| PromiseThen (receiver : AccountId) (act : Action).

(** ** Contract methods as state transformers that may abort *)

Inductive outcome (A : Type) : Type :=
| Ok (a : A) (st : State) (out : list effect)
| Abort (msg : string).

Arguments Ok {A} a st out.
Arguments Abort {A} msg.

Definition contract (A : Type) : Type := State -> outcome A.

Definition ret {A} (a : A) : contract A := fun st => Ok a st [].

Definition bind {A B} (m : contract A) (k : A -> contract B) : contract B :=
  fun st =>
    match m st with
    | Ok a st1 out1 =>
        match k a st1 with
        | Ok b st2 out2 => Ok b st2 (out1 ++ out2)
        | Abort msg => Abort msg
        end
    | Abort msg => Abort msg
    end.

Notation "'let!' x ':=' m 'in' k" := (bind m (fun x => k))
  (at level 10, x name, m at level 100, k at level 200).
Notation "m ';!' k" := (bind m (fun _ => k))
  (at level 100, k at level 200, right associativity).

Definition abort {A} (msg : string) : contract A := fun _ => Abort msg.

Definition assert (cond : bool) (msg : string) : contract unit :=
  if cond then ret tt else abort msg.

Definition emit (e : effect) : contract unit := fun st => Ok tt st [e].

(** The state the host keeps after an invocation: an abort rolls back. *)
Definition state_after {A} (m : contract A) (st : State) : State :=
  match m st with
  | Ok _ st' _ => st'
  | Abort _ => st
  end.

(** *** [storage] *)

Definition storage_hasKey (key : string) : contract bool :=
  fun st => Ok (bool_decide (is_Some (storage st !! key))) st [].

Definition storage_set (key : string) (v : value) : contract unit :=
  fun st => Ok tt (mkState (<[key := v]> (storage st)) (donations st)) [].

(** [storage.getSome<u128>]: aborts when the key holds no [u128]. *)
Definition storage_getSome_u128 (key : string) : contract Z :=
  fun st =>
    match storage st !! key with
    | Some (VU128 a) => Ok a st []
    | _ => Abort ("Key '" ++ key ++ "' is not present in the storage")
    end.

Definition storage_getSome_string (key : string) : contract string :=
  fun st =>
    match storage st !! key with
    | Some (VString s) => Ok s st []
    | _ => Abort ("Key '" ++ key ++ "' is not present in the storage")
    end.

(** [storage.getString]: [null] ([None]) on a missing key. *)
Definition storage_getString (key : string) : contract (option string) :=
  fun st =>
    match storage st !! key with
    | Some (VString s) => Ok (Some s) st []
    | _ => Ok None st []
    end.

(** *** [PersistentSet<Donation>]: [add] stores an item only when no equal
    item is stored, [values] lists the items in insertion order. *)

Definition PersistentSet_has (item : Donation) (s : list Donation) : bool :=
  bool_decide (item ∈ s).

Definition PersistentSet_add (item : Donation) (s : list Donation)
  : list Donation :=
  if PersistentSet_has item s then s else s ++ [item].

Definition donations_add (item : Donation) : contract unit :=
  fun st => Ok tt (mkState (storage st) (PersistentSet_add item (donations st))) [].

Definition donations_values : contract (list Donation) :=
  fun st => Ok (donations st) st [].

(** *** Strings: [split], [splice(1)] and [join] of [get_factory] *)

Fixpoint split_go (sep : ascii) (s : string) (cur : string) : list string :=
  match s with
  | EmptyString => [cur]
  | String c rest =>
      if Ascii.eqb c sep
      then cur :: split_go sep rest EmptyString
      else split_go sep rest (cur ++ String c EmptyString)
  end.

Definition split (sep : ascii) (s : string) : list string :=
  split_go sep s EmptyString.

(** [splice(start)] returns the elements removed: those from [start] on. *)
Definition splice {A} (start : nat) (l : list A) : list A := drop start l.

Definition join (sep : string) (l : list string) : string :=
  String.concat sep l.

(** Whether the character [c] occurs in [s]. *)
Fixpoint contains (c : ascii) (s : string) : bool :=
  match s with
  | EmptyString => false
  | String c' rest => Ascii.eqb c' c || contains c rest
  end.

Definition OWNER_STORAGE_KEY : string := "o".
Definition BALANCE_STORAGE_KEY : string := "b".

(** ** A sample deployment

    Values for the constants of [../../utils], which the contract below
    takes as parameters, and the accounts of the source's own example:
    the donation account [myorg.donate.near] owned by [myorg.near]. *)

Module Sample.

Definition ONE_NEAR : Amount := 10 ^ 24.
Definition MIN_ACCOUNT_BALANCE : Amount := 3 * ONE_NEAR.
Definition MIN_DONATION_AMOUNT : Amount := ONE_NEAR.
Definition MIN_WITHDRAWAL_AMOUNT : Amount := ONE_NEAR.
Definition PLATFORM_FEE_DIVISOR : Amount := 100.
Definition XCC_GAS : Z := 20000000000000.

Definition asNEAR (a : Amount) : string := pretty (a / ONE_NEAR).

Definition isValidAccountID (a : AccountId) : bool :=
  (2 <=? String.length a)%nat && (String.length a <=? 64)%nat.

Definition contract_id : AccountId := "myorg.donate.near".
Definition owner_id : AccountId := "myorg.near".

(** Just initialised by [owner_id]. *)
Definition ready : State :=
  mkState (<["b" := VU128 0]> (<["o" := VString owner_id]> ∅)) [].

(** [owner_id] initialises with 3 NEAR attached. *)
Definition init_ctx : Context :=
  mkContext (3 * ONE_NEAR) owner_id contract_id 1000 [].

(** [alice.near] donates 100 NEAR at block time 2000. *)
Definition donate_ctx : Context :=
  mkContext (100 * ONE_NEAR) "alice.near" contract_id 2000 [].

Definition net : Amount := 99 * ONE_NEAR.

(** After that donation was confirmed at block time 2001. *)
Definition funded : State :=
  mkState (<["b" := VU128 net]> (<["o" := VString owner_id]> ∅))
          [mkDonation contract_id net 2001].

(** [owner_id] asks for a withdrawal. *)
Definition withdraw_ctx : Context :=
  mkContext 0 owner_id contract_id 3000 [].

(** [mallory.near] chains a callback of the contract to a promise of
    its own that resolved with [status]. *)
Definition mallory_ctx (status : Z) : Context :=
  mkContext 0 "mallory.near" contract_id 4000 [status].

Definition max_u128 : Amount := 2 ^ 128 - 1.

(** An overflow guard that looks at the high 64-bit limbs only; it misses
    an overflow that comes from the carry of the low limbs. *)
Definition overflow_guard (a b : Amount) : bool :=
  2 ^ 64 - 1 - a / 2 ^ 64 <? b / 2 ^ 64.

(** [ready] after [mallory.near] had [max_u128] credited. *)
Definition full : State :=
  mkState (<["b" := VU128 max_u128]> (<["o" := VString owner_id]> ∅))
          [mkDonation "mallory.near" max_u128 4000].

End Sample.

(** ** The contract *)

Section Contract.

(** Constants and helpers imported from [../../utils] and the host. *)
Variable MIN_ACCOUNT_BALANCE : Amount.
Variable MIN_DONATION_AMOUNT : Amount.
Variable MIN_WITHDRAWAL_AMOUNT : Amount.
Variable PLATFORM_FEE_DIVISOR : Amount.
Variable XCC_GAS : Z.
Variable asNEAR : Amount -> string.
Variable isValidAccountID : AccountId -> bool.

(** The overflow guard of the library's checked [u128.add], for the sums
    that do not fit in 128 bits: [true] where it fires. The library is not
    part of the sources; what is known of its guard is that it lets every
    sum below 2^128 through and fires on some, not all, of the others. *)
Variable overflow_guard : Amount -> Amount -> bool.

Definition is_initialized : contract bool :=
  let! o := storage_hasKey OWNER_STORAGE_KEY in
  if o then storage_hasKey BALANCE_STORAGE_KEY else ret false.

Definition assert_contract_is_initialized : contract unit :=
  let! i := is_initialized in
  assert i "Contract must be initialized first.".

Definition is_owner (ctx : Context) : contract bool :=
  let! o := storage_getString OWNER_STORAGE_KEY in
  ret (bool_decide (Some (predecessor ctx) = o)).

Definition assert_signed_by_owner (ctx : Context) : contract unit :=
  let! o := is_owner ctx in
  assert o "Must be called by owner. e.g. myorg.near if your donation account is myorg.donate.near".

Definition get_factory (ctx : Context) : AccountId :=
  join "." (splice 1 (split "." (contractName ctx))).

Definition get_balance : contract Amount :=
  assert_contract_is_initialized ;!
  storage_getSome_u128 BALANCE_STORAGE_KEY.

Definition get_owner : contract AccountId :=
  assert_contract_is_initialized ;!
  storage_getSome_string OWNER_STORAGE_KEY.

Definition get_donations : contract (list Donation) :=
  assert_contract_is_initialized ;!
  donations_values.

Definition init (ctx : Context) (owner : AccountId) : contract unit :=
  let! i := is_initialized in
  assert (negb i) "Contract is already initialized." ;!
  assert (u128.ge (attachedDeposit ctx) MIN_ACCOUNT_BALANCE)
    "Minimum account balance must be attached to initialize this contract (3 NEAR)" ;!
  assert (isValidAccountID owner)
    "Owner account must have valid NEAR account name" ;!
  storage_set OWNER_STORAGE_KEY (VString owner) ;!
  storage_set BALANCE_STORAGE_KEY (VU128 u128.Zero) ;!
  emit (Log "donation account was created").

(** Whether the checked addition throws on [a + b]. *)
Definition add_aborts (a b : Amount) : bool :=
  (u128.modulus <=? a + b) && overflow_guard a b.

(** The checked [u128.add]: throw where the guard fires, else the sum of
    the base class. *)
Definition u128_add (a b : Amount) : contract Amount :=
  if add_aborts a b
  then abort "Overflow during addision"
  else ret (u128.add a b).

Definition u128_div (a b : Amount) : contract Amount :=
  match u128.div a b with
  | Some q => ret q
  | None => abort "Division by zero"
  end.

Definition send_donation (ctx : Context) : contract unit :=
  assert_contract_is_initialized ;!
  assert (u128.ge (attachedDeposit ctx) MIN_DONATION_AMOUNT)
    "Minimum donation must be attached (1 NEAR)" ;!
  let! feeAmount := u128_div (attachedDeposit ctx) PLATFORM_FEE_DIVISOR in
  let donationAmount := u128.sub (attachedDeposit ctx) feeAmount in
  emit (PromiseCreate (get_factory ctx)
          (function_call "deposit_fees" EmptyArgs feeAmount XCC_GAS)) ;!
  emit (PromiseThen (contractName ctx)
          (function_call "on_donation_sent" (DonationSentArgs donationAmount)
             u128.Zero XCC_GAS)).

(** [results[0]]: an index out of range aborts. *)
Definition first_result (ctx : Context) : contract Z :=
  match promiseResults ctx with
  | status :: _ => ret status
  | [] => abort "Index out of range"
  end.

Definition on_donation_sent (ctx : Context) (amount : Amount) : contract unit :=
  let! status := first_result ctx in
  match status with
  | 0 => emit (Log "Donation is pending")
  | 1 =>
      emit (Log ("Successfully received " ++ asNEAR amount ++ " NEAR donation")) ;!
      let! balance := get_balance in
      let! sum := u128_add balance amount in
      storage_set BALANCE_STORAGE_KEY (VU128 sum) ;!
      donations_add (mkDonation (predecessor ctx) amount (blockTimestamp ctx))
  | 2 => emit (Log "Donation failed")
  | _ => emit (Log ("Unexpected value for promise result [" ++ pretty status ++ "]"))
  end.

Definition withdraw_donations (ctx : Context) (amount : Amount) : contract unit :=
  assert_contract_is_initialized ;!
  assert_signed_by_owner ctx ;!
  assert (u128.ge amount MIN_WITHDRAWAL_AMOUNT)
    "Attempting to withdraw less than minimum amount (1 NEAR)" ;!
  let owner := predecessor ctx in
  let! balance := storage_getSome_u128 BALANCE_STORAGE_KEY in
  assert (u128.le amount balance)
    "Attempting to withdraw more than donation balance." ;!
  storage_set BALANCE_STORAGE_KEY (VU128 (u128.sub balance amount)) ;!
  emit (PromiseCreate owner (transfer amount)) ;!
  emit (PromiseThen (contractName ctx)
          (function_call "on_donations_withdrawn" (DonationsWithdrawnArgs amount)
             u128.Zero XCC_GAS)).

Definition on_donations_withdrawn (ctx : Context) (amount : Amount) : contract unit :=
  let! status := first_result ctx in
  match status with
  | 0 => emit (Log "Donation withdrawal is pending")
  | 1 => emit (Log ("Successfully withdrawn " ++ asNEAR amount ++ " NEAR of donations"))
  | 2 =>
      emit (Log "Donation withdrawal failed") ;!
      let! balance := get_balance in
      let! sum := u128_add balance amount in
      storage_set BALANCE_STORAGE_KEY (VU128 sum)
  | _ => emit (Log ("Unexpected value for promise result [" ++ pretty status ++ "]"))
  end.

(** ** Observations on the persisted state *)

Definition initialized (st : State) : Prop :=
  is_initialized st = Ok true st [].

(** The [u128] held by the balance slot. *)
Definition Balance (st : State) : option Amount :=
  match storage st !! BALANCE_STORAGE_KEY with
  | Some (VU128 a) => Some a
  | _ => None
  end.

Definition Owner (st : State) : option AccountId :=
  match storage st !! OWNER_STORAGE_KEY with
  | Some (VString s) => Some s
  | _ => None
  end.

(** What the types of the source guarantee of a persisted state: the
    balance slot, when present, holds a [u128], the owner slot a string,
    and the donation set no item twice. *)
Record well_formed (st : State) : Prop := mk_well_formed {
  wf_balance : forall v, storage st !! BALANCE_STORAGE_KEY = Some v ->
                 exists a, v = VU128 a /\ u128.in_range a;
  wf_owner : forall v, storage st !! OWNER_STORAGE_KEY = Some v ->
                 exists s, v = VString s;
  wf_donations : NoDup (donations st)
}.

(** ** Invocations *)

Inductive call : Type :=
| call_init (owner : AccountId)
| call_send_donation
| call_on_donation_sent (amount : Amount)
| call_withdraw_donations (amount : Amount)
| call_on_donations_withdrawn (amount : Amount)
| call_get_donations
| call_get_owner
| call_get_balance.

(** The state persisted after one entry call. *)
Definition invoke (c : call) (ctx : Context) (st : State) : State :=
  match c with
  | call_init owner => state_after (init ctx owner) st
  | call_send_donation => state_after (send_donation ctx) st
  | call_on_donation_sent amount => state_after (on_donation_sent ctx amount) st
  | call_withdraw_donations amount => state_after (withdraw_donations ctx amount) st
  | call_on_donations_withdrawn amount =>
      state_after (on_donations_withdrawn ctx amount) st
  | call_get_donations => state_after get_donations st
  | call_get_owner => state_after get_owner st
  | call_get_balance => state_after get_balance st
  end.

(** Amount arguments are [u128] values. *)
Definition valid_call (c : call) : Prop :=
  match c with
  | call_on_donation_sent amount
  | call_withdraw_donations amount
  | call_on_donations_withdrawn amount => u128.in_range amount
  | _ => True
  end.

(** States the contract can be in after any sequence of entry calls,
    by any callers, starting from [st0]. *)
Inductive reachable_from (st0 : State) : State -> Prop :=
| reachable_refl : reachable_from st0 st0
| reachable_step st c ctx :
    reachable_from st0 st -> valid_call c ->
    reachable_from st0 (invoke c ctx st).

Definition empty_state : State := mkState ∅ [].

Definition reachable : State -> Prop := reachable_from empty_state.

(** The context in which the host runs a callback scheduled with
    [promise.then(receiver).function_call(_, _, deposit, _)] by the
    invocation [ctx]: its predecessor is the account that scheduled it,
    it runs at block time [now] and sees the awaited promise's [status]. *)
Definition callback_context (ctx : Context) (receiver : AccountId)
    (deposit : Amount) (now : Z) (status : Z) : Context :=
  mkContext deposit (contractName ctx) receiver now [status].

(** The state after debiting [amount] from a balance [b]. *)
Definition debited (st : State) (b amount : Amount) : State :=
  mkState (<[BALANCE_STORAGE_KEY := VU128 (u128.sub b amount)]> (storage st))
          (donations st).

(** The state after crediting [amount] to a balance [b]. *)
Definition credited (st : State) (b amount : Amount) : State :=
  mkState (<[BALANCE_STORAGE_KEY := VU128 (u128.add b amount)]> (storage st))
          (donations st).

(** The state [init] persists: both slots written, balance zero. *)
Definition initial_state (st : State) (owner : AccountId) : State :=
  mkState (<[BALANCE_STORAGE_KEY := VU128 u128.Zero]>
             (<[OWNER_STORAGE_KEY := VString owner]> (storage st)))
          (donations st).

(** The two callbacks. *)
Inductive callback : Type := cb_on_donation_sent | cb_on_donations_withdrawn.

Definition run_callback (cb : callback) : Context -> Amount -> contract unit :=
  match cb with
  | cb_on_donation_sent => on_donation_sent
  | cb_on_donations_withdrawn => on_donations_withdrawn
  end.

(** The one status under which a callback writes: [1] (success) for
    [on_donation_sent], [2] (failure) for [on_donations_withdrawn]. *)
Definition mutating_status (cb : callback) : Z :=
  match cb with
  | cb_on_donation_sent => 1
  | cb_on_donations_withdrawn => 2
  end.

(** ** Evaluation lemmas *)

Lemma is_initialized_eq st :
  is_initialized st =
  Ok (bool_decide (is_Some (storage st !! OWNER_STORAGE_KEY)) &&
      bool_decide (is_Some (storage st !! BALANCE_STORAGE_KEY))) st [].
Proof.
  unfold is_initialized, bind, storage_hasKey, ret.
  destruct (bool_decide (is_Some (storage st !! OWNER_STORAGE_KEY))); reflexivity.
Qed.

Lemma initialized_iff st :
  initialized st <->
  is_Some (storage st !! OWNER_STORAGE_KEY) /\
  is_Some (storage st !! BALANCE_STORAGE_KEY).
Proof.
  unfold initialized. rewrite is_initialized_eq. split.
  - intros H. injection H as H. apply andb_prop in H as [H1 H2].
    split; eapply bool_decide_eq_true_1; eassumption.
  - intros [H1 H2]. rewrite !bool_decide_eq_true_2 by assumption. reflexivity.
Qed.

Lemma initialized_dec st : {initialized st} + {~ initialized st}.
Proof.
  destruct (decide (is_Some (storage st !! OWNER_STORAGE_KEY) /\
                    is_Some (storage st !! BALANCE_STORAGE_KEY))) as [H|H].
  - left. apply initialized_iff, H.
  - right. intros Hi. apply H, initialized_iff, Hi.
Qed.

Lemma assert_initialized_ok st :
  initialized st -> assert_contract_is_initialized st = Ok tt st [].
Proof.
  intros H. unfold assert_contract_is_initialized, bind. rewrite H. reflexivity.
Qed.

Lemma assert_initialized_abort st :
  ~ initialized st ->
  assert_contract_is_initialized st = Abort "Contract must be initialized first.".
Proof.
  intros H. unfold assert_contract_is_initialized, bind.
  unfold initialized in H. rewrite is_initialized_eq in *.
  destruct (_ && _); [contradiction H; reflexivity | reflexivity].
Qed.

Lemma getSome_balance st b :
  Balance st = Some b -> storage_getSome_u128 BALANCE_STORAGE_KEY st = Ok b st [].
Proof.
  unfold Balance, storage_getSome_u128.
  destruct (storage st !! BALANCE_STORAGE_KEY) as [[|a]|]; intros H;
    inversion H; reflexivity.
Qed.

Lemma get_balance_ok st b :
  initialized st -> Balance st = Some b -> get_balance st = Ok b st [].
Proof.
  intros Hi Hb. unfold get_balance, bind.
  rewrite (assert_initialized_ok _ Hi), (getSome_balance _ _ Hb). reflexivity.
Qed.

Lemma first_result_cons ctx status rest st :
  promiseResults ctx = status :: rest -> first_result ctx st = Ok status st [].
Proof. intros H. unfold first_result. rewrite H. reflexivity. Qed.

Lemma u128_div_ok a b st :
  b <> 0 -> u128_div a b st = Ok (a / b) st [].
Proof.
  intros H. unfold u128_div, u128.div.
  destruct (Z.eqb_spec b 0); [contradiction | reflexivity].
Qed.

Lemma u128_ge_true a b : b <= a -> u128.ge a b = true.
Proof. intros H. unfold u128.ge. apply Z.leb_le, H. Qed.

(** A callback changes the persisted state only through its one
    mutating status. *)
Lemma on_donation_sent_other ctx amount st status rest :
  promiseResults ctx = status :: rest -> status <> 1 ->
  exists out, on_donation_sent ctx amount st = Ok tt st out.
Proof.
  intros Hr Hs. unfold on_donation_sent, bind.
  rewrite (first_result_cons _ _ _ _ Hr).
  destruct status as [|p|p]; [| destruct p as [p|p|] |];
    try (eexists; reflexivity).
  - destruct p; eexists; reflexivity.
  - contradiction Hs; reflexivity.
Qed.

Lemma on_donations_withdrawn_other ctx amount st status rest :
  promiseResults ctx = status :: rest -> status <> 2 ->
  exists out, on_donations_withdrawn ctx amount st = Ok tt st out.
Proof.
  intros Hr Hs. unfold on_donations_withdrawn, bind.
  rewrite (first_result_cons _ _ _ _ Hr).
  destruct status as [|p|p]; [| destruct p as [p|p|] |];
    try (eexists; reflexivity).
  destruct p; try (eexists; reflexivity). contradiction Hs; reflexivity.
Qed.

Lemma send_donation_ok ctx st :
  initialized st ->
  MIN_DONATION_AMOUNT <= attachedDeposit ctx ->
  PLATFORM_FEE_DIVISOR <> 0 ->
  send_donation ctx st =
  Ok tt st
    [PromiseCreate (get_factory ctx)
       (function_call "deposit_fees" EmptyArgs
          (attachedDeposit ctx / PLATFORM_FEE_DIVISOR) XCC_GAS);
     PromiseThen (contractName ctx)
       (function_call "on_donation_sent"
          (DonationSentArgs
             (u128.sub (attachedDeposit ctx)
                (attachedDeposit ctx / PLATFORM_FEE_DIVISOR)))
          u128.Zero XCC_GAS)].
Proof.
  intros Hi Hd Hz. unfold send_donation, bind.
  rewrite (assert_initialized_ok _ Hi), (u128_ge_true _ _ Hd). simpl.
  rewrite (u128_div_ok _ _ _ Hz). reflexivity.
Qed.

Lemma send_donation_state ctx st : state_after (send_donation ctx) st = st.
Proof.
  unfold state_after, send_donation, bind.
  destruct (assert_contract_is_initialized st) as [[] st1 o1|] eqn:E; [|reflexivity].
  assert (st1 = st) as ->.
  { destruct (initialized_dec st) as [Hi|Hi].
    - rewrite (assert_initialized_ok _ Hi) in E. congruence.
    - rewrite (assert_initialized_abort _ Hi) in E. discriminate. }
  destruct (u128.ge _ _); simpl; [|reflexivity].
  unfold u128_div. destruct (u128.div _ _); reflexivity.
Qed.

Lemma is_owner_eq ctx st :
  is_owner ctx st = Ok (bool_decide (Some (predecessor ctx) = Owner st)) st [].
Proof.
  unfold is_owner, bind, storage_getString, Owner, ret.
  destruct (storage st !! OWNER_STORAGE_KEY) as [[s|a]|]; reflexivity.
Qed.

(** [withdraw_donations] succeeds exactly when its four checks pass. *)
Lemma withdraw_donations_ok ctx amount st b :
  initialized st -> Owner st = Some (predecessor ctx) ->
  MIN_WITHDRAWAL_AMOUNT <= amount -> Balance st = Some b -> amount <= b ->
  withdraw_donations ctx amount st =
  Ok tt (debited st b amount)
    [PromiseCreate (predecessor ctx) (transfer amount);
     PromiseThen (contractName ctx)
       (function_call "on_donations_withdrawn" (DonationsWithdrawnArgs amount)
          u128.Zero XCC_GAS)].
Proof.
  intros Hi Ho Hm Hb Hle. unfold withdraw_donations, assert_signed_by_owner, bind.
  rewrite (assert_initialized_ok _ Hi), is_owner_eq, Ho.
  rewrite bool_decide_eq_true_2 by reflexivity. simpl.
  rewrite (u128_ge_true _ _ Hm). simpl.
  rewrite (getSome_balance _ _ Hb). unfold u128.le.
  rewrite (proj2 (Z.leb_le _ _) Hle). reflexivity.
Qed.

Lemma withdraw_donations_inv ctx amount st st' out :
  withdraw_donations ctx amount st = Ok tt st' out ->
  initialized st /\ Owner st = Some (predecessor ctx) /\
  MIN_WITHDRAWAL_AMOUNT <= amount /\
  exists b, Balance st = Some b /\ amount <= b /\ st' = debited st b amount.
Proof.
  unfold withdraw_donations, assert_signed_by_owner, bind. intros H.
  destruct (initialized_dec st) as [Hi|Hi];
    [rewrite (assert_initialized_ok _ Hi) in H
    | rewrite (assert_initialized_abort _ Hi) in H; discriminate].
  rewrite is_owner_eq in H.
  destruct (decide (Some (predecessor ctx) = Owner st)) as [Ho|Ho];
    [rewrite (bool_decide_eq_true_2 _ Ho) in H
    | rewrite (bool_decide_eq_false_2 _ Ho) in H; discriminate].
  simpl in H. unfold u128.ge in H.
  destruct (Z.leb_spec MIN_WITHDRAWAL_AMOUNT amount) as [Hm|Hm];
    [|discriminate].
  simpl in H. destruct (Balance st) as [b|] eqn:Hb.
  - rewrite (getSome_balance _ _ Hb) in H. unfold u128.le in H.
    destruct (Z.leb_spec amount b) as [Hle|Hle]; [|discriminate].
    simpl in H. injection H as <- _. eauto 10.
  - unfold storage_getSome_u128 in H. unfold Balance in Hb.
    destruct (storage st !! BALANCE_STORAGE_KEY) as [[s|a]|]; discriminate.
Qed.

Lemma withdraw_donations_abort ctx amount st :
  ~ initialized st \/ Owner st <> Some (predecessor ctx) \/
  amount < MIN_WITHDRAWAL_AMOUNT \/
  (exists b, Balance st = Some b /\ b < amount) ->
  exists msg, withdraw_donations ctx amount st = Abort msg.
Proof.
  intros Hbad.
  destruct (withdraw_donations ctx amount st) as [[] st' out|msg] eqn:E;
    [|eauto].
  apply withdraw_donations_inv in E as (Hi & Ho & Hm & b & Hb & Hle & _).
  destruct Hbad as [H|[H|[H|(b' & Hb' & H)]]]; try contradiction; try lia.
  rewrite Hb in Hb'. injection Hb' as <-. lia.
Qed.

Lemma add_fits a b : a + b < u128.modulus -> add_aborts a b = false.
Proof.
  intros H. unfold add_aborts. rewrite (proj2 (Z.leb_gt _ _) H). reflexivity.
Qed.

Lemma on_donation_sent_success ctx amount st b rest :
  promiseResults ctx = 1 :: rest -> initialized st -> Balance st = Some b ->
  add_aborts b amount = false ->
  on_donation_sent ctx amount st =
  Ok tt
    (mkState (storage (credited st b amount))
       (PersistentSet_add
          (mkDonation (predecessor ctx) amount (blockTimestamp ctx))
          (donations st)))
    [Log ("Successfully received " ++ asNEAR amount ++ " NEAR donation")].
Proof.
  intros Hr Hi Hb Hp. unfold on_donation_sent, bind.
  rewrite (first_result_cons _ _ _ _ Hr). simpl.
  rewrite (get_balance_ok _ _ Hi Hb). unfold u128_add. rewrite Hp. reflexivity.
Qed.

Lemma on_donations_withdrawn_failure ctx amount st b rest :
  promiseResults ctx = 2 :: rest -> initialized st -> Balance st = Some b ->
  add_aborts b amount = false ->
  on_donations_withdrawn ctx amount st =
  Ok tt (credited st b amount) [Log "Donation withdrawal failed"].
Proof.
  intros Hr Hi Hb Hp. unfold on_donations_withdrawn, bind.
  rewrite (first_result_cons _ _ _ _ Hr). simpl.
  rewrite (get_balance_ok _ _ Hi Hb). unfold u128_add. rewrite Hp. reflexivity.
Qed.

(** Where the guard of the addition fires, the crediting branch aborts
    before it writes. *)
Lemma on_donation_sent_overflow ctx amount st b rest :
  promiseResults ctx = 1 :: rest -> initialized st -> Balance st = Some b ->
  add_aborts b amount = true ->
  on_donation_sent ctx amount st = Abort "Overflow during addision".
Proof.
  intros Hr Hi Hb Hp. unfold on_donation_sent, bind.
  rewrite (first_result_cons _ _ _ _ Hr). simpl.
  rewrite (get_balance_ok _ _ Hi Hb). unfold u128_add. rewrite Hp. reflexivity.
Qed.

Lemma on_donations_withdrawn_overflow ctx amount st b rest :
  promiseResults ctx = 2 :: rest -> initialized st -> Balance st = Some b ->
  add_aborts b amount = true ->
  on_donations_withdrawn ctx amount st = Abort "Overflow during addision".
Proof.
  intros Hr Hi Hb Hp. unfold on_donations_withdrawn, bind.
  rewrite (first_result_cons _ _ _ _ Hr). simpl.
  rewrite (get_balance_ok _ _ Hi Hb). unfold u128_add. rewrite Hp. reflexivity.
Qed.

Lemma init_ok ctx owner st :
  ~ initialized st ->
  MIN_ACCOUNT_BALANCE <= attachedDeposit ctx ->
  isValidAccountID owner = true ->
  init ctx owner st =
  Ok tt (initial_state st owner) [Log "donation account was created"].
Proof.
  intros Hi Hd Hv. unfold init, bind. rewrite is_initialized_eq.
  unfold initialized in Hi. rewrite is_initialized_eq in Hi.
  destruct (_ && _); [contradiction Hi; reflexivity|]. simpl.
  rewrite (u128_ge_true _ _ Hd), Hv. reflexivity.
Qed.

Lemma init_inv ctx owner st st' out :
  init ctx owner st = Ok tt st' out ->
  ~ initialized st /\ MIN_ACCOUNT_BALANCE <= attachedDeposit ctx /\
  isValidAccountID owner = true /\ st' = initial_state st owner.
Proof.
  unfold init, bind. rewrite is_initialized_eq. intros H.
  assert (~ initialized st) as Hi.
  { unfold initialized. rewrite is_initialized_eq.
    destruct (_ && _); [discriminate H | discriminate]. }
  split; [exact Hi|].
  destruct (_ && _); [discriminate|]. simpl in H. unfold u128.ge in H.
  destruct (Z.leb_spec MIN_ACCOUNT_BALANCE (attachedDeposit ctx)); [|discriminate].
  simpl in H. destruct (isValidAccountID owner); [|discriminate].
  simpl in H. injection H as <- _. auto.
Qed.

Lemma init_abort ctx owner st :
  initialized st \/ attachedDeposit ctx < MIN_ACCOUNT_BALANCE \/
  isValidAccountID owner = false ->
  exists msg, init ctx owner st = Abort msg.
Proof.
  intros Hbad. destruct (init ctx owner st) as [[] st' out|msg] eqn:E; [|eauto].
  apply init_inv in E as (Hi & Hd & Hv & _).
  destruct Hbad as [H|[H|H]]; [contradiction | lia | congruence].
Qed.

Lemma initial_state_initialized st owner : initialized (initial_state st owner).
Proof.
  apply initialized_iff. unfold initial_state; simpl. split.
  - rewrite lookup_insert_ne by discriminate. rewrite lookup_insert_eq. eauto.
  - rewrite lookup_insert_eq. eauto.
Qed.

Lemma initial_state_Balance st owner :
  Balance (initial_state st owner) = Some 0.
Proof. unfold Balance, initial_state; simpl. rewrite lookup_insert_eq. reflexivity. Qed.

Lemma initial_state_Owner st owner :
  Owner (initial_state st owner) = Some owner.
Proof.
  unfold Owner, initial_state; simpl.
  rewrite lookup_insert_ne by discriminate. rewrite lookup_insert_eq. reflexivity.
Qed.

(** Writing the balance slot. *)
Lemma set_balance_initialized st a ds :
  initialized st ->
  initialized (mkState (<[BALANCE_STORAGE_KEY := VU128 a]> (storage st)) ds).
Proof.
  intros [Ho Hb]%initialized_iff. apply initialized_iff; simpl. split.
  - rewrite lookup_insert_ne by discriminate. exact Ho.
  - rewrite lookup_insert_eq. eauto.
Qed.

Lemma set_balance_Balance st a ds :
  Balance (mkState (<[BALANCE_STORAGE_KEY := VU128 a]> (storage st)) ds) = Some a.
Proof. unfold Balance; simpl. rewrite lookup_insert_eq. reflexivity. Qed.

Lemma set_balance_Owner st a ds :
  Owner (mkState (<[BALANCE_STORAGE_KEY := VU128 a]> (storage st)) ds) = Owner st.
Proof. unfold Owner; simpl. rewrite lookup_insert_ne by discriminate. reflexivity. Qed.

Lemma wrap_in_range a : u128.in_range (u128.wrap a).
Proof. unfold u128.in_range, u128.wrap. apply Z.mod_pos_bound. reflexivity. Qed.

Lemma wrap_small a : u128.in_range a -> u128.wrap a = a.
Proof. intros H. unfold u128.wrap. apply Z.mod_small, H. Qed.

(** What each entry call does to the persisted state. *)

Lemma get_donations_state st : state_after get_donations st = st.
Proof.
  unfold state_after, get_donations, bind, donations_values.
  destruct (initialized_dec st) as [Hi|Hi].
  - rewrite (assert_initialized_ok _ Hi). reflexivity.
  - rewrite (assert_initialized_abort _ Hi). reflexivity.
Qed.

Lemma get_owner_state st : state_after get_owner st = st.
Proof.
  unfold state_after, get_owner, bind, storage_getSome_string.
  destruct (initialized_dec st) as [Hi|Hi].
  - rewrite (assert_initialized_ok _ Hi).
    destruct (storage st !! OWNER_STORAGE_KEY) as [[s|a]|]; reflexivity.
  - rewrite (assert_initialized_abort _ Hi). reflexivity.
Qed.

Lemma get_balance_state st : state_after get_balance st = st.
Proof.
  unfold state_after, get_balance, bind, storage_getSome_u128.
  destruct (initialized_dec st) as [Hi|Hi].
  - rewrite (assert_initialized_ok _ Hi).
    destruct (storage st !! BALANCE_STORAGE_KEY) as [[s|a]|]; reflexivity.
  - rewrite (assert_initialized_abort _ Hi). reflexivity.
Qed.

Lemma get_balance_None st :
  Balance st = None -> exists msg, get_balance st = Abort msg.
Proof.
  intros Hb. destruct (get_balance st) as [b st' out|msg] eqn:E; [|eauto].
  unfold get_balance, bind in E.
  destruct (initialized_dec st) as [Hi|Hi];
    [rewrite (assert_initialized_ok _ Hi) in E
    | rewrite (assert_initialized_abort _ Hi) in E; discriminate].
  unfold storage_getSome_u128 in E. unfold Balance in Hb.
  destruct (storage st !! BALANCE_STORAGE_KEY) as [[s|a]|]; discriminate.
Qed.

Lemma init_state ctx owner st :
  state_after (init ctx owner) st = st \/
  ~ initialized st /\ state_after (init ctx owner) st = initial_state st owner.
Proof.
  unfold state_after. destruct (init ctx owner st) as [[] st' out|] eqn:E; [|auto].
  apply init_inv in E as (Hi & _ & _ & ->). auto.
Qed.

Lemma withdraw_donations_state ctx amount st :
  state_after (withdraw_donations ctx amount) st = st \/
  exists b, initialized st /\ Balance st = Some b /\ amount <= b /\
            state_after (withdraw_donations ctx amount) st = debited st b amount.
Proof.
  unfold state_after.
  destruct (withdraw_donations ctx amount st) as [[] st' out|] eqn:E; [|auto].
  apply withdraw_donations_inv in E as (Hi & _ & _ & b & Hb & Hle & ->). eauto 10.
Qed.

Lemma on_donation_sent_state ctx amount st :
  state_after (on_donation_sent ctx amount) st = st \/
  exists b, initialized st /\ Balance st = Some b /\
            state_after (on_donation_sent ctx amount) st =
            mkState (storage (credited st b amount))
              (PersistentSet_add
                 (mkDonation (predecessor ctx) amount (blockTimestamp ctx))
                 (donations st)).
Proof.
  destruct (promiseResults ctx) as [|status rest] eqn:Hr.
  { left. unfold state_after, on_donation_sent, bind, first_result.
    rewrite Hr. reflexivity. }
  destruct (decide (status = 1)) as [->|Hs].
  - destruct (initialized_dec st) as [Hi|Hi].
    + destruct (Balance st) as [b|] eqn:Hb.
      * destruct (add_aborts b amount) eqn:Hp.
        -- left. unfold state_after.
           rewrite (on_donation_sent_overflow _ _ _ _ _ Hr Hi Hb Hp). reflexivity.
        -- right. exists b. unfold state_after.
           rewrite (on_donation_sent_success _ _ _ _ _ Hr Hi Hb Hp). auto.
      * left. unfold state_after, on_donation_sent, bind.
        rewrite (first_result_cons _ _ _ _ Hr). simpl.
        destruct (get_balance_None _ Hb) as [msg ->]. reflexivity.
    + left. unfold state_after, on_donation_sent, bind.
      rewrite (first_result_cons _ _ _ _ Hr). simpl.
      unfold get_balance, bind. rewrite (assert_initialized_abort _ Hi).
      reflexivity.
  - left. unfold state_after.
    destruct (on_donation_sent_other _ amount st _ _ Hr Hs) as [out ->].
    reflexivity.
Qed.

Lemma on_donations_withdrawn_state ctx amount st :
  state_after (on_donations_withdrawn ctx amount) st = st \/
  exists b, initialized st /\ Balance st = Some b /\
            state_after (on_donations_withdrawn ctx amount) st = credited st b amount.
Proof.
  destruct (promiseResults ctx) as [|status rest] eqn:Hr.
  { left. unfold state_after, on_donations_withdrawn, bind, first_result.
    rewrite Hr. reflexivity. }
  destruct (decide (status = 2)) as [->|Hs].
  - destruct (initialized_dec st) as [Hi|Hi].
    + destruct (Balance st) as [b|] eqn:Hb.
      * destruct (add_aborts b amount) eqn:Hp.
        -- left. unfold state_after.
           rewrite (on_donations_withdrawn_overflow _ _ _ _ _ Hr Hi Hb Hp).
           reflexivity.
        -- right. exists b. unfold state_after.
           rewrite (on_donations_withdrawn_failure _ _ _ _ _ Hr Hi Hb Hp). auto.
      * left. unfold state_after, on_donations_withdrawn, bind.
        rewrite (first_result_cons _ _ _ _ Hr). simpl.
        destruct (get_balance_None _ Hb) as [msg ->]. reflexivity.
    + left. unfold state_after, on_donations_withdrawn, bind.
      rewrite (first_result_cons _ _ _ _ Hr). simpl.
      unfold get_balance, bind. rewrite (assert_initialized_abort _ Hi).
      reflexivity.
  - left. unfold state_after.
    destruct (on_donations_withdrawn_other _ amount st _ _ Hr Hs) as [out ->].
    reflexivity.
Qed.

(** Every entry call leaves the state as it was, initialises it, or
    rewrites the balance slot of an initialised state with a wrapped
    [u128], adding at most one item to the donation set. *)
Lemma invoke_cases c ctx st :
  invoke c ctx st = st \/
  (exists owner, ~ initialized st /\ invoke c ctx st = initial_state st owner) \/
  (exists a d, initialized st /\
     storage (invoke c ctx st) =
       <[BALANCE_STORAGE_KEY := VU128 (u128.wrap a)]> (storage st) /\
     (donations (invoke c ctx st) = donations st \/
      donations (invoke c ctx st) = PersistentSet_add d (donations st))).
Proof.
  destruct c as [owner| |amount|amount|amount| | |]; simpl.
  - destruct (init_state ctx owner st) as [->|[Hi ->]]; [auto|].
    right; left. eauto.
  - left. apply send_donation_state.
  - destruct (on_donation_sent_state ctx amount st) as [->|(b & Hi & _ & ->)];
      [auto|].
    right; right. exists (b + amount). eexists. simpl. auto.
  - destruct (withdraw_donations_state ctx amount st)
      as [->|(b & Hi & _ & _ & ->)]; [auto|].
    right; right. exists (b - amount), (mkDonation "" 0 0). simpl. auto.
  - destruct (on_donations_withdrawn_state ctx amount st) as [->|(b & Hi & _ & ->)];
      [auto|].
    right; right. exists (b + amount), (mkDonation "" 0 0). simpl. auto.
  - left. apply get_donations_state.
  - left. apply get_owner_state.
  - left. apply get_balance_state.
Qed.

(** ** The donation set *)

Lemma PersistentSet_add_present d l : d ∈ l -> PersistentSet_add d l = l.
Proof.
  intros H. unfold PersistentSet_add, PersistentSet_has.
  rewrite bool_decide_eq_true_2 by assumption. reflexivity.
Qed.

Lemma PersistentSet_add_fresh d l : d ∉ l -> PersistentSet_add d l = (l ++ [d])%list.
Proof.
  intros H. unfold PersistentSet_add, PersistentSet_has.
  rewrite bool_decide_eq_false_2 by assumption. reflexivity.
Qed.

Lemma PersistentSet_add_elem d l : d ∈ PersistentSet_add d l.
Proof.
  destruct (decide (d ∈ l)) as [H|H].
  - rewrite PersistentSet_add_present; assumption.
  - rewrite PersistentSet_add_fresh by assumption.
    apply elem_of_app. right. apply list_elem_of_singleton. reflexivity.
Qed.

Lemma PersistentSet_add_mono x d l : x ∈ l -> x ∈ PersistentSet_add d l.
Proof.
  intros Hx. destruct (decide (d ∈ l)) as [H|H].
  - rewrite PersistentSet_add_present; assumption.
  - rewrite PersistentSet_add_fresh by assumption.
    apply elem_of_app. left. exact Hx.
Qed.

Lemma PersistentSet_add_NoDup d l : NoDup l -> NoDup (PersistentSet_add d l).
Proof.
  intros Hn. destruct (decide (d ∈ l)) as [H|H].
  - rewrite PersistentSet_add_present; assumption.
  - rewrite PersistentSet_add_fresh by assumption.
    apply NoDup_app. split; [exact Hn|]. split.
    + intros x Hx Hd. apply list_elem_of_singleton in Hd. subst. contradiction.
    + apply NoDup_singleton.
Qed.

Lemma PersistentSet_add_idem d l :
  PersistentSet_add d (PersistentSet_add d l) = PersistentSet_add d l.
Proof. apply PersistentSet_add_present, PersistentSet_add_elem. Qed.

(** Number of stored items equal to [d]. *)
Lemma NoDup_count d (l : list Donation) :
  NoDup l -> d ∈ l -> length (filter (fun x => x = d) l) = 1%nat.
Proof.
  induction 1 as [|x l Hx Hn IH]; intros Hd.
  - inversion Hd.
  - rewrite filter_cons. destruct (decide (x = d)) as [->|Hne].
    + simpl. f_equal.
      destruct (filter (fun x => x = d) l) as [|y ys] eqn:E; [reflexivity|].
      assert (y ∈ filter (fun x => x = d) l) as Hy by (rewrite E; left).
      apply list_elem_of_filter in Hy as [-> Hy]. contradiction.
    + apply IH. apply elem_of_cons in Hd as [->|Hd]; [contradiction|exact Hd].
Qed.

(** ** Invariants of the entry calls *)

Lemma invoke_well_formed c ctx st :
  well_formed st -> well_formed (invoke c ctx st).
Proof.
  intros [Hb Ho Hd].
  destruct (invoke_cases c ctx st) as [->|[(owner & _ & ->)|(a & d & _ & Hs & Hds)]].
  - split; assumption.
  - split; simpl.
    + intros v. rewrite lookup_insert_eq. intros [= <-].
      exists 0. split; [reflexivity|]. unfold u128.in_range, u128.modulus. lia.
    + intros v. rewrite lookup_insert_ne by discriminate.
      rewrite lookup_insert_eq. intros [= <-]. eauto.
    + assumption.
  - split.
    + intros v. rewrite Hs, lookup_insert_eq. intros [= <-].
      eexists. split; [reflexivity|]. apply wrap_in_range.
    + intros v. rewrite Hs, lookup_insert_ne by discriminate. apply Ho.
    + destruct Hds as [->| ->]; [assumption|].
      apply PersistentSet_add_NoDup, Hd.
Qed.

Lemma invoke_initialized c ctx st :
  initialized st -> initialized (invoke c ctx st).
Proof.
  intros Hi.
  destruct (invoke_cases c ctx st) as [->|[(owner & Hn & _)|(a & d & _ & Hs & _)]].
  - assumption.
  - contradiction.
  - apply initialized_iff in Hi as [Ho Hb]. apply initialized_iff. rewrite Hs. split.
    + rewrite lookup_insert_ne by discriminate. exact Ho.
    + rewrite lookup_insert_eq. eauto.
Qed.

Lemma invoke_donations_mono c ctx st x :
  x ∈ donations st -> x ∈ donations (invoke c ctx st).
Proof.
  intros Hx.
  destruct (invoke_cases c ctx st) as [->|[(owner & _ & ->)|(a & d & _ & _ & Hds)]].
  - assumption.
  - assumption.
  - destruct Hds as [->| ->]; [assumption|]. apply PersistentSet_add_mono, Hx.
Qed.

Lemma reachable_from_well_formed st0 st :
  well_formed st0 -> reachable_from st0 st -> well_formed st.
Proof. intros H0. induction 1; [assumption|]. apply invoke_well_formed. assumption. Qed.

Lemma reachable_from_initialized st0 st :
  initialized st0 -> reachable_from st0 st -> initialized st.
Proof. intros H0. induction 1; [assumption|]. apply invoke_initialized. assumption. Qed.

Lemma reachable_from_donations_mono st0 st x :
  x ∈ donations st0 -> reachable_from st0 st -> x ∈ donations st.
Proof. intros H0. induction 1; [assumption|]. apply invoke_donations_mono. assumption. Qed.




Lemma wrap_overflow a :
  u128.modulus <= a < 2 * u128.modulus -> u128.wrap a = a - u128.modulus.
Proof.
  intros H. unfold u128.wrap.
  replace a with (a - u128.modulus + 1 * u128.modulus) at 1 by lia.
  rewrite Z.mod_add by (unfold u128.modulus; lia).
  apply Z.mod_small. lia.
Qed.

Lemma empty_state_well_formed : well_formed empty_state.
Proof.
  split; simpl.
  - intros v. rewrite lookup_empty. discriminate.
  - intros v. rewrite lookup_empty. discriminate.
  - apply NoDup_nil_2.
Qed.

Lemma well_formed_Balance st :
  well_formed st -> initialized st ->
  exists b, Balance st = Some b /\ u128.in_range b.
Proof.
  intros [Hb _ _] [_ [v Hv]]%initialized_iff.
  destruct (Hb v Hv) as (a & -> & Ha). exists a. unfold Balance. rewrite Hv. auto.
Qed.


(** ** The claims *)

(** C1 (as amended). In a donation flow whose fee-forward call resolves
    with status Success, [on_donation_sent(net)], run on an initialised
    state whose Balance plus the net amount fits in 128 bits, sets Balance
    to exactly Balance + net and adds to the donation set one record whose
    amount is the net amount: the collection grows by exactly that record
    when no equal record is stored and is unchanged otherwise. *)
Theorem donation_flow_success ctx st1 now st2 b :
  initialized st1 ->
  u128.in_range (attachedDeposit ctx) ->
  MIN_DONATION_AMOUNT <= attachedDeposit ctx ->
  0 < PLATFORM_FEE_DIVISOR ->
  initialized st2 ->
  Balance st2 = Some b ->
  u128.in_range b ->
  b + (attachedDeposit ctx - attachedDeposit ctx / PLATFORM_FEE_DIVISOR)
    < u128.modulus ->
  let fee := attachedDeposit ctx / PLATFORM_FEE_DIVISOR in
  let net := attachedDeposit ctx - fee in
  send_donation ctx st1 =
    Ok tt st1
      [PromiseCreate (get_factory ctx)
         (function_call "deposit_fees" EmptyArgs fee XCC_GAS);
       PromiseThen (contractName ctx)
         (function_call "on_donation_sent" (DonationSentArgs net)
            u128.Zero XCC_GAS)] /\
  exists st3 out d,
    on_donation_sent
      (callback_context ctx (contractName ctx) u128.Zero now 1) net st2
      = Ok tt st3 out /\
    Balance st3 = Some (b + net) /\
    Owner st3 = Owner st2 /\
    amount d = net /\
    donations st3 = PersistentSet_add d (donations st2) /\
    (d ∉ donations st2 -> donations st3 = (donations st2 ++ [d])%list) /\
    (d ∈ donations st2 -> donations st3 = donations st2).
Proof.
  intros Hi1 Hdep Hmin Hdiv Hi2 Hb Hbr Hfit fee net.
  assert (0 <= fee <= attachedDeposit ctx) as Hfee.
  { unfold fee. destruct Hdep as [H0 _]. split.
    - apply Z.div_pos; lia.
    - apply Z.div_le_upper_bound; nia. }
  assert (u128.sub (attachedDeposit ctx) fee = net) as Hnet.
  { unfold u128.sub. apply wrap_small. unfold net, u128.in_range in *. lia. }
  split.
  - rewrite send_donation_ok by (assumption || lia). fold fee. rewrite Hnet.
    reflexivity.
  - set (cb := callback_context ctx (contractName ctx) u128.Zero now 1).
    exists (mkState (storage (credited st2 b net))
              (PersistentSet_add
                 (mkDonation (predecessor cb) net (blockTimestamp cb))
                 (donations st2))).
    eexists. exists (mkDonation (predecessor cb) net (blockTimestamp cb)).
    split.
    { apply (on_donation_sent_success cb net st2 b []); auto.
      apply add_fits. exact Hfit. }
    split.
    { unfold credited; simpl. rewrite set_balance_Balance. f_equal.
      unfold u128.add. apply wrap_small. unfold net, u128.in_range in *. lia. }
    split; [apply set_balance_Owner|].
    split; [reflexivity|]. split; [reflexivity|]. simpl. split.
    + apply PersistentSet_add_fresh.
    + apply PersistentSet_add_present.
Qed.

(** C2. With the preconditions met, [withdraw_donations(amount)] debits
    Balance by [amount] at once and schedules the transfer with its
    callback; run on the debited state, [on_donations_withdrawn(amount)]
    with status Failure restores the pre-withdrawal state, Balance
    included, and with status Success changes nothing. *)
Theorem withdraw_flow ctx amount st b :
  initialized st ->
  Owner st = Some (predecessor ctx) ->
  MIN_WITHDRAWAL_AMOUNT <= amount ->
  u128.in_range amount ->
  Balance st = Some b ->
  u128.in_range b ->
  amount <= b ->
  exists st1,
    withdraw_donations ctx amount st =
      Ok tt st1
        [PromiseCreate (predecessor ctx) (transfer amount);
         PromiseThen (contractName ctx)
           (function_call "on_donations_withdrawn"
              (DonationsWithdrawnArgs amount) u128.Zero XCC_GAS)] /\
    Balance st1 = Some (b - amount) /\
    (forall cb rest, promiseResults cb = 2 :: rest ->
       exists out, on_donations_withdrawn cb amount st1 = Ok tt st out) /\
    (forall cb rest, promiseResults cb = 1 :: rest ->
       exists out, on_donations_withdrawn cb amount st1 = Ok tt st1 out).
Proof.
  intros Hi Ho Hm Ha Hb Hbr Hle. exists (debited st b amount).
  assert (u128.sub b amount = b - amount) as Hsub.
  { unfold u128.sub. apply wrap_small. unfold u128.in_range in *. lia. }
  split; [apply withdraw_donations_ok; assumption|].
  split; [unfold debited; rewrite set_balance_Balance, Hsub; reflexivity|].
  split.
  - intros cb rest Hr. eexists.
    rewrite (on_donations_withdrawn_failure cb amount _ (b - amount) rest Hr).
    + f_equal. unfold credited, debited; simpl.
      destruct st as [sto ds]; simpl. f_equal.
      rewrite insert_insert_eq. apply insert_id.
      unfold u128.add. rewrite wrap_small by (unfold u128.in_range in *; lia).
      replace (b - amount + amount) with b by lia.
      unfold Balance in Hb; simpl in Hb.
      destruct (sto !! BALANCE_STORAGE_KEY) as [[s|a]|]; congruence.
    + apply set_balance_initialized, Hi.
    + unfold debited. rewrite set_balance_Balance, Hsub. reflexivity.
    + apply add_fits. unfold u128.in_range in *. lia.
  - intros cb rest Hr.
    apply (on_donations_withdrawn_other cb amount _ 1 rest Hr). discriminate.
Qed.

(** C3. Under every status other than its mutating one (pending, the
    other terminal status, any unexpected code) a callback returns
    normally and leaves the whole persisted state, Balance and donation
    collection included, as it was. *)
Theorem callback_other_status_frame cb ctx amount st status rest :
  promiseResults ctx = status :: rest ->
  status <> mutating_status cb ->
  exists out, run_callback cb ctx amount st = Ok tt st out.
Proof.
  intros Hr Hs. destruct cb; simpl in *.
  - eapply on_donation_sent_other; eassumption.
  - eapply on_donations_withdrawn_other; eassumption.
Qed.

(** C4. For an attached deposit of at least the minimum donation,
    [send_donation] attaches [fee = floor(deposit / PLATFORM_FEE_DIVISOR)]
    to the fee-forward call and passes [net = deposit - fee] to its
    callback; [fee + net = deposit] and [fee] is at most
    [deposit / PLATFORM_FEE_DIVISOR]. *)
Theorem fee_split ctx st :
  initialized st ->
  u128.in_range (attachedDeposit ctx) ->
  MIN_DONATION_AMOUNT <= attachedDeposit ctx ->
  0 < PLATFORM_FEE_DIVISOR ->
  exists fee net,
    send_donation ctx st =
      Ok tt st
        [PromiseCreate (get_factory ctx)
           (function_call "deposit_fees" EmptyArgs fee XCC_GAS);
         PromiseThen (contractName ctx)
           (function_call "on_donation_sent" (DonationSentArgs net)
              u128.Zero XCC_GAS)] /\
    fee = attachedDeposit ctx / PLATFORM_FEE_DIVISOR /\
    net = attachedDeposit ctx - fee /\
    fee + net = attachedDeposit ctx /\
    0 <= fee /\
    fee * PLATFORM_FEE_DIVISOR <= attachedDeposit ctx /\
    attachedDeposit ctx < (fee + 1) * PLATFORM_FEE_DIVISOR.
Proof.
  intros Hi Hdep Hmin Hdiv.
  set (fee := attachedDeposit ctx / PLATFORM_FEE_DIVISOR).
  exists fee, (attachedDeposit ctx - fee).
  assert (0 <= fee <= attachedDeposit ctx) as Hfee.
  { unfold fee. destruct Hdep as [H0 _]. split.
    - apply Z.div_pos; lia.
    - apply Z.div_le_upper_bound; nia. }
  split.
  - rewrite send_donation_ok by (assumption || lia). fold fee.
    unfold u128.sub. rewrite wrap_small; [reflexivity|].
    unfold u128.in_range in *. lia.
  - repeat split; try lia.
    + unfold fee. rewrite Z.mul_comm. apply Z.mul_div_le. lia.
    + unfold fee.
      pose proof (Z.mul_succ_div_gt (attachedDeposit ctx) PLATFORM_FEE_DIVISOR Hdiv).
      lia.
Qed.

Lemma get_balance_inv st b st' out :
  get_balance st = Ok b st' out -> initialized st /\ Balance st = Some b.
Proof.
  unfold get_balance, bind. intros H.
  destruct (initialized_dec st) as [Hi|Hi];
    [rewrite (assert_initialized_ok _ Hi) in H
    | rewrite (assert_initialized_abort _ Hi) in H; discriminate].
  split; [exact Hi|]. unfold storage_getSome_u128 in H. unfold Balance.
  destruct (storage st !! BALANCE_STORAGE_KEY) as [[s|a]|]; try discriminate.
  injection H as ->. reflexivity.
Qed.

Lemma on_donation_sent_success_inv ctx amount st rest st' out :
  promiseResults ctx = 1 :: rest ->
  on_donation_sent ctx amount st = Ok tt st' out ->
  initialized st /\
  exists b, Balance st = Some b /\ add_aborts b amount = false.
Proof.
  intros Hr H. unfold on_donation_sent, bind in H.
  rewrite (first_result_cons _ _ _ _ Hr) in H. simpl in H.
  destruct (get_balance st) as [b st1 o1|] eqn:E; [|discriminate].
  pose proof (get_balance_inv _ _ _ _ E) as [Hi Hb].
  rewrite (get_balance_ok _ _ Hi Hb) in E. injection E as <- _.
  unfold u128_add in H. destruct (add_aborts b amount) eqn:Hp; [discriminate|].
  eauto.
Qed.

Lemma on_donations_withdrawn_failure_inv ctx amount st rest st' out :
  promiseResults ctx = 2 :: rest ->
  on_donations_withdrawn ctx amount st = Ok tt st' out ->
  initialized st /\
  exists b, Balance st = Some b /\ add_aborts b amount = false.
Proof.
  intros Hr H. unfold on_donations_withdrawn, bind in H.
  rewrite (first_result_cons _ _ _ _ Hr) in H. simpl in H.
  destruct (get_balance st) as [b st1 o1|] eqn:E; [|discriminate].
  pose proof (get_balance_inv _ _ _ _ E) as [Hi Hb].
  rewrite (get_balance_ok _ _ Hi Hb) in E. injection E as <- _.
  unfold u128_add in H. destruct (add_aborts b amount) eqn:Hp; [discriminate|].
  eauto.
Qed.



(** A sum that wraps is lower than its first summand, and conversely. *)
Lemma add_lowers b amount :
  u128.in_range b -> u128.in_range amount ->
  (u128.add b amount < b <-> u128.modulus <= b + amount) /\
  (u128.modulus <= b + amount -> u128.add b amount = b + amount - u128.modulus).
Proof.
  intros Hb Ha. unfold u128.in_range in *. unfold u128.add.
  destruct (Z_lt_le_dec (b + amount) u128.modulus) as [Hfit|Hover].
  - rewrite wrap_small by (unfold u128.in_range; lia). split; [lia|lia].
  - rewrite wrap_overflow by lia. split; [lia|reflexivity].
Qed.


(** C6. With the contract initialised and at least the minimum donation
    attached, [send_donation] returns with the persisted state exactly as
    it was (no credit, no donation record); in the donation flow the state
    changes only in [on_donation_sent] under status Success. *)
Theorem send_donation_frame ctx st :
  initialized st ->
  MIN_DONATION_AMOUNT <= attachedDeposit ctx ->
  PLATFORM_FEE_DIVISOR <> 0 ->
  (exists out, send_donation ctx st = Ok tt st out) /\
  (forall ctx' st', state_after (send_donation ctx') st' = st') /\
  (forall cb amount st',
     state_after (on_donation_sent cb amount) st' <> st' ->
     head (promiseResults cb) = Some 1).
Proof.
  intros Hi Hd Hz. split; [|split].
  - eexists. apply send_donation_ok; assumption.
  - intros ctx' st'. apply send_donation_state.
  - intros cb amount st' Hne.
    destruct (promiseResults cb) as [|status rest] eqn:Hr.
    + contradiction Hne. unfold state_after, on_donation_sent, bind, first_result.
      rewrite Hr. reflexivity.
    + simpl. destruct (decide (status = 1)) as [->|Hs]; [reflexivity|].
      contradiction Hne. unfold state_after.
      destruct (on_donation_sent_other cb amount st' _ _ Hr Hs) as [out ->].
      reflexivity.
Qed.

(** C7. [withdraw_donations(amount)] aborts, leaving the state as it
    was, when the contract is not initialised, the caller is not the
    owner, the amount is below the minimum withdrawal or it exceeds
    Balance; it debits only when all four checks pass. *)
Theorem withdraw_donations_guard ctx amount st :
  (~ initialized st \/ Owner st <> Some (predecessor ctx) \/
   amount < MIN_WITHDRAWAL_AMOUNT \/
   (exists b, Balance st = Some b /\ b < amount) ->
   (exists msg, withdraw_donations ctx amount st = Abort msg) /\
   state_after (withdraw_donations ctx amount) st = st) /\
  (forall st' out,
     withdraw_donations ctx amount st = Ok tt st' out ->
     initialized st /\ Owner st = Some (predecessor ctx) /\
     MIN_WITHDRAWAL_AMOUNT <= amount /\
     exists b, Balance st = Some b /\ amount <= b /\
               st' = debited st b amount).
Proof.
  split.
  - intros Hbad. destruct (withdraw_donations_abort _ _ _ Hbad) as [msg E].
    split; [eauto|]. unfold state_after. rewrite E. reflexivity.
  - intros st' out. apply withdraw_donations_inv.
Qed.

(** C8. [init(owner)] on an uninitialised state, with the minimum
    account balance attached and a valid owner id, stores
    Owner = owner and Balance = 0, so that [get_balance] returns zero;
    whatever calls follow, every later [init] aborts and changes
    nothing; [init] also aborts, changing nothing, when the deposit is
    too small or the owner id is not valid. *)
Theorem init_exactly_once ctx owner st :
  ~ initialized st ->
  MIN_ACCOUNT_BALANCE <= attachedDeposit ctx ->
  isValidAccountID owner = true ->
  (exists out,
     init ctx owner st = Ok tt (initial_state st owner) out /\
     Owner (initial_state st owner) = Some owner /\
     Balance (initial_state st owner) = Some 0 /\
     get_balance (initial_state st owner) = Ok 0 (initial_state st owner) []) /\
  (forall st' ctx' owner',
     reachable_from (initial_state st owner) st' ->
     init ctx' owner' st' = Abort "Contract is already initialized." /\
     state_after (init ctx' owner') st' = st') /\
  (forall ctx' owner' st',
     initialized st' \/ attachedDeposit ctx' < MIN_ACCOUNT_BALANCE \/
     isValidAccountID owner' = false ->
     (exists msg, init ctx' owner' st' = Abort msg) /\
     state_after (init ctx' owner') st' = st').
Proof.
  intros Hn Hd Hv. split; [|split].
  - eexists. split; [apply init_ok; assumption|].
    split; [apply initial_state_Owner|].
    split; [apply initial_state_Balance|].
    apply get_balance_ok;
      [apply initial_state_initialized | apply initial_state_Balance].
  - intros st' ctx' owner' Hr.
    pose proof (reachable_from_initialized _ _
                  (initial_state_initialized st owner) Hr) as Hi.
    assert (init ctx' owner' st' = Abort "Contract is already initialized.") as E.
    { unfold init, bind. rewrite Hi. reflexivity. }
    split; [exact E|]. unfold state_after. rewrite E. reflexivity.
  - intros ctx' owner' st' Hbad.
    destruct (init_abort _ _ _ Hbad) as [msg E].
    split; [eauto|]. unfold state_after. rewrite E. reflexivity.
Qed.

(** C9. The donation log is a set under equality of all three fields:
    once a donation callback under status Success has stored its record,
    whatever calls run in between, a second one that builds a record with
    the same donor, amount and timestamp adds nothing when it returns (as
    it does whenever Balance + amount is below 2^128), and the stored
    collection holds that record exactly once: adding a record already
    present changes nothing. *)
Theorem donation_set_collapses ctx1 ctx2 amount st st1 out1 st1' rest1 rest2 :
  well_formed st ->
  promiseResults ctx1 = 1 :: rest1 ->
  promiseResults ctx2 = 1 :: rest2 ->
  predecessor ctx1 = predecessor ctx2 ->
  blockTimestamp ctx1 = blockTimestamp ctx2 ->
  on_donation_sent ctx1 amount st = Ok tt st1 out1 ->
  reachable_from st1 st1' ->
  let d := mkDonation (predecessor ctx1) amount (blockTimestamp ctx1) in
  d ∈ donations st1' /\
  length (filter (fun x => x = d) (donations st1')) = 1%nat /\
  PersistentSet_add d (donations st1') = donations st1' /\
  (forall st2 out2,
     on_donation_sent ctx2 amount st1' = Ok tt st2 out2 ->
     donations st2 = donations st1' /\
     length (filter (fun x => x = d) (donations st2)) = 1%nat) /\
  (exists b,
     Balance st1' = Some b /\
     (b + amount < u128.modulus ->
      exists st2 out2,
        on_donation_sent ctx2 amount st1' = Ok tt st2 out2 /\
        donations st2 = donations st1')).
Proof.
  intros Hwf Hr1 Hr2 Hp Ht H1 Hreach d.
  destruct (on_donation_sent_success_inv _ _ _ _ _ _ Hr1 H1)
    as (Hi & b & Hb & Hpass).
  rewrite (on_donation_sent_success _ _ _ _ _ Hr1 Hi Hb Hpass) in H1.
  injection H1 as <- _.
  assert (well_formed st1') as Hwf'.
  { eapply reachable_from_well_formed; [|exact Hreach].
    apply (invoke_well_formed (call_on_donation_sent amount) ctx1) in Hwf.
    simpl in Hwf. unfold state_after in Hwf.
    rewrite (on_donation_sent_success _ _ _ _ _ Hr1 Hi Hb Hpass) in Hwf.
    exact Hwf. }
  assert (initialized st1') as Hi'.
  { eapply reachable_from_initialized; [|exact Hreach].
    apply set_balance_initialized, Hi. }
  assert (d ∈ donations st1') as Hd.
  { eapply reachable_from_donations_mono; [|exact Hreach].
    simpl. apply PersistentSet_add_elem. }
  assert (length (filter (fun x => x = d) (donations st1')) = 1%nat) as Hcount.
  { apply NoDup_count; [apply Hwf'|exact Hd]. }
  destruct (well_formed_Balance _ Hwf' Hi') as (b' & Hb' & _).
  assert (forall st2 out2,
            on_donation_sent ctx2 amount st1' = Ok tt st2 out2 ->
            donations st2 = donations st1') as Hsame.
  { intros st2 out2 H2.
    destruct (on_donation_sent_success_inv _ _ _ _ _ _ Hr2 H2)
      as (_ & b2 & Hb2 & Hpass2).
    rewrite (on_donation_sent_success _ _ _ _ _ Hr2 Hi' Hb2 Hpass2) in H2.
    injection H2 as <- _. simpl. rewrite <- Hp, <- Ht. fold d.
    apply PersistentSet_add_present, Hd. }
  split; [exact Hd|]. split; [exact Hcount|].
  split; [apply PersistentSet_add_present, Hd|]. split.
  - intros st2 out2 H2. rewrite (Hsame _ _ H2). auto.
  - exists b'. split; [exact Hb'|]. intros Hfit.
    pose proof (on_donation_sent_success _ amount _ _ _ Hr2 Hi' Hb'
                  (add_fits _ _ Hfit)) as H2.
    do 2 eexists. split; [exact H2|]. exact (Hsame _ _ H2).
Qed.

(** C10 (as amended). Neither callback checks who calls it: for every
    caller, on an initialised state with Balance + amount below 2^128,
    [on_donations_withdrawn(amount)] under status Failure returns normally
    and increases Balance by [amount], and [on_donation_sent(amount)]
    under status Success credits Balance the same way and stores a record
    whose donor is the invoking caller. When Balance + amount reaches
    2^128 neither does so: the call aborts in the checked addition, or,
    where the overflow guard of that addition does not fire, stores the
    sum modulo 2^128. *)
Theorem callbacks_unauthenticated caller ctx amount st b :
  predecessor ctx = caller ->
  initialized st ->
  Balance st = Some b ->
  u128.in_range b ->
  u128.in_range amount ->
  (b + amount < u128.modulus ->
   (forall rest, promiseResults ctx = 2 :: rest ->
      exists st' out,
        on_donations_withdrawn ctx amount st = Ok tt st' out /\
        Balance st' = Some (b + amount)) /\
   (forall rest, promiseResults ctx = 1 :: rest ->
      exists st' out,
        on_donation_sent ctx amount st = Ok tt st' out /\
        Balance st' = Some (b + amount) /\
        donations st' =
          PersistentSet_add (mkDonation caller amount (blockTimestamp ctx))
            (donations st) /\
        mkDonation caller amount (blockTimestamp ctx) ∈ donations st')) /\
  (u128.modulus <= b + amount ->
   forall cb rest,
     promiseResults ctx = mutating_status cb :: rest ->
     run_callback cb ctx amount st = Abort "Overflow during addision" \/
     exists st' out,
       run_callback cb ctx amount st = Ok tt st' out /\
       Balance st' = Some (b + amount - u128.modulus)).
Proof.
  intros Hc Hi Hb Hbr Ha. split.
  - intros Hfit.
    assert (u128.add b amount = b + amount) as Hsum.
    { unfold u128.add. apply wrap_small. unfold u128.in_range in *. lia. }
    split; intros rest Hr.
    + do 2 eexists.
      split; [apply (on_donations_withdrawn_failure _ _ _ _ _ Hr Hi Hb
                       (add_fits _ _ Hfit))|].
      unfold credited. rewrite set_balance_Balance, Hsum. reflexivity.
    + do 2 eexists.
      split; [apply (on_donation_sent_success _ _ _ _ _ Hr Hi Hb
                       (add_fits _ _ Hfit))|].
      unfold credited; simpl. rewrite set_balance_Balance, Hsum, Hc.
      split; [reflexivity|]. split; [reflexivity|]. apply PersistentSet_add_elem.
  - intros Hover cb rest Hr.
    destruct (add_lowers b amount Hbr Ha) as [_ Hval].
    destruct (add_aborts b amount) eqn:Hab.
    + left. destruct cb; simpl in *.
      * apply (on_donation_sent_overflow _ _ _ _ _ Hr Hi Hb Hab).
      * apply (on_donations_withdrawn_overflow _ _ _ _ _ Hr Hi Hb Hab).
    + right. destruct cb; simpl in *; do 2 eexists.
      * split; [apply (on_donation_sent_success _ _ _ _ _ Hr Hi Hb Hab)|].
        unfold credited; simpl. rewrite set_balance_Balance, (Hval Hover).
        reflexivity.
      * split; [apply (on_donations_withdrawn_failure _ _ _ _ _ Hr Hi Hb Hab)|].
        unfold credited. rewrite set_balance_Balance, (Hval Hover). reflexivity.
Qed.

(** ** Further properties of the contract *)

(** *** The factory account *)

Lemma append_cons x (t s : string) :
  (String x t ++ s)%string = String x (t ++ s)%string.
Proof. reflexivity. Qed.

Lemma append_nil_r (s : string) : (s ++ "")%string = s.
Proof.
  induction s as [|x t IH]; [reflexivity|]. rewrite append_cons, IH. reflexivity.
Qed.

Lemma append_assoc (a b c : string) :
  ((a ++ b) ++ c)%string = (a ++ (b ++ c))%string.
Proof.
  induction a as [|x t IH]; [reflexivity|]. rewrite !append_cons, IH. reflexivity.
Qed.

Lemma split_go_cons sep s cur :
  exists x l, split_go sep s cur = x :: l.
Proof.
  revert cur. induction s as [|c t IH]; intros cur; simpl; [eauto|].
  destruct (Ascii.eqb c sep); [eauto | apply IH].
Qed.

(** Joining what [split] produced gives the string back. *)
Lemma join_split_go sep s cur :
  join (String sep "") (split_go sep s cur) = (cur ++ s)%string.
Proof.
  revert cur. induction s as [|c t IH]; intros cur; simpl.
  - rewrite append_nil_r. reflexivity.
  - destruct (Ascii.eqb_spec c sep) as [->|Hne].
    + specialize (IH ""%string).
      destruct (split_go_cons sep t "") as (x & l & E).
      unfold join in *. rewrite E in *.
      change (String.concat (String sep "") (cur :: x :: l))
        with (cur ++ (String sep "" ++ String.concat (String sep "") (x :: l)))%string.
      rewrite IH. reflexivity.
    + rewrite IH, append_assoc. reflexivity.
Qed.

Lemma split_go_no_sep sep p cur :
  contains sep p = false -> split_go sep p cur = [(cur ++ p)%string].
Proof.
  revert cur. induction p as [|c q IH]; intros cur H; simpl in *.
  - rewrite append_nil_r. reflexivity.
  - apply orb_false_elim in H as [Hc Hp]. rewrite Hc.
    rewrite (IH _ Hp), append_assoc. reflexivity.
Qed.

Lemma split_go_first sep p rest cur :
  contains sep p = false ->
  split_go sep (p ++ String sep rest) cur =
  (cur ++ p)%string :: split_go sep rest "".
Proof.
  revert cur. induction p as [|c q IH]; intros cur H.
  - change ("" ++ String sep rest)%string with (String sep rest). simpl.
    rewrite Ascii.eqb_refl, append_nil_r. reflexivity.
  - simpl in H. apply orb_false_elim in H as [Hc Hp].
    rewrite append_cons. simpl. rewrite Hc.
    rewrite (IH _ Hp), append_assoc. reflexivity.
Qed.

(** X1. [get_factory] returns the parent account: for a contract named
    [prefix.parent], where [prefix] holds no dot, it is [parent], whatever
    dots [parent] holds. *)
Theorem get_factory_parent ctx prefix parent :
  contains "." prefix = false ->
  contractName ctx = (prefix ++ "." ++ parent)%string ->
  get_factory ctx = parent.
Proof.
  intros Hp Hn. unfold get_factory, split. rewrite Hn.
  change (prefix ++ "." ++ parent)%string
    with (prefix ++ String "." parent)%string.
  rewrite (split_go_first _ _ _ _ Hp). unfold splice. simpl.
  apply (join_split_go "." parent "").
Qed.

(** X2. For a contract whose name holds no dot (a top-level account)
    [get_factory] returns the empty string. *)
Theorem get_factory_top_level ctx :
  contains "." (contractName ctx) = false ->
  get_factory ctx = ""%string.
Proof.
  intros H. unfold get_factory, split.
  rewrite (split_go_no_sep _ _ _ H). reflexivity.
Qed.

(** *** The query surface *)

Lemma get_owner_ok st o :
  initialized st -> Owner st = Some o -> get_owner st = Ok o st [].
Proof.
  intros Hi Ho. unfold get_owner, bind. rewrite (assert_initialized_ok _ Hi).
  unfold storage_getSome_string. unfold Owner in Ho.
  destruct (storage st !! OWNER_STORAGE_KEY) as [[s|a]|]; try discriminate.
  injection Ho as ->. reflexivity.
Qed.

Lemma get_donations_ok st :
  initialized st -> get_donations st = Ok (donations st) st [].
Proof.
  intros Hi. unfold get_donations, bind. rewrite (assert_initialized_ok _ Hi).
  reflexivity.
Qed.

Lemma well_formed_Owner st :
  well_formed st -> initialized st -> exists o, Owner st = Some o.
Proof.
  intros [_ Ho _] [[v Hv] _]%initialized_iff.
  destruct (Ho v Hv) as (o & ->). exists o. unfold Owner. rewrite Hv. reflexivity.
Qed.

(** X3. Before initialisation each of [get_balance], [get_owner] and
    [get_donations] aborts with the message of
    [assert_contract_is_initialized]. *)
Theorem queries_require_initialization st :
  ~ initialized st ->
  get_balance st = Abort "Contract must be initialized first." /\
  get_owner st = Abort "Contract must be initialized first." /\
  get_donations st = Abort "Contract must be initialized first.".
Proof.
  intros Hn. unfold get_balance, get_owner, get_donations, bind.
  rewrite (assert_initialized_abort _ Hn). auto.
Qed.

(** X4. In every initialised state reachable by entry calls the three
    queries return normally, emit nothing and leave the state as it is:
    [get_balance] a value below 2^128, [get_owner] the stored owner,
    [get_donations] the stored records, none of them twice. *)
Theorem queries_total_when_initialized st :
  reachable st -> initialized st ->
  exists b o,
    get_balance st = Ok b st [] /\ 0 <= b < u128.modulus /\
    get_owner st = Ok o st [] /\
    get_donations st = Ok (donations st) st [] /\
    NoDup (donations st).
Proof.
  intros Hr Hi.
  pose proof (reachable_from_well_formed _ _ empty_state_well_formed Hr) as Hwf.
  destruct (well_formed_Balance _ Hwf Hi) as (b & Hb & Hrange).
  destruct (well_formed_Owner _ Hwf Hi) as (o & Ho).
  exists b, o. split; [apply get_balance_ok; assumption|].
  split; [exact Hrange|]. split; [apply get_owner_ok; assumption|].
  split; [apply get_donations_ok; assumption|]. apply Hwf.
Qed.

(** *** The owner *)

Lemma invoke_Owner c ctx st :
  initialized st -> Owner (invoke c ctx st) = Owner st.
Proof.
  intros Hi.
  destruct (invoke_cases c ctx st) as [->|[(owner & Hn & _)|(a & d & _ & Hs & _)]].
  - reflexivity.
  - contradiction.
  - unfold Owner. rewrite Hs, lookup_insert_ne by discriminate. reflexivity.
Qed.

Lemma reachable_from_Owner st0 st :
  initialized st0 -> reachable_from st0 st -> Owner st = Owner st0.
Proof.
  intros H0. induction 1 as [|st c ctx Hr IH Hv]; [reflexivity|].
  rewrite invoke_Owner; [exact IH|].
  apply (reachable_from_initialized _ _ H0 Hr).
Qed.

(** X5. The owner is set once: after a successful [init(owner)], whatever
    entry calls follow, [get_owner] returns [owner] and [is_owner] holds
    for exactly the caller [owner]. *)
Theorem owner_is_immutable ctx0 owner st0 st1 out st :
  init ctx0 owner st0 = Ok tt st1 out ->
  reachable_from st1 st ->
  get_owner st = Ok owner st [] /\
  forall ctx, is_owner ctx st =
              Ok (bool_decide (predecessor ctx = owner)) st [].
Proof.
  intros Hinit Hr. apply init_inv in Hinit as (_ & _ & _ & ->).
  pose proof (initial_state_initialized st0 owner) as Hi1.
  pose proof (reachable_from_initialized _ _ Hi1 Hr) as Hi.
  assert (Owner st = Some owner) as Ho.
  { rewrite (reachable_from_Owner _ _ Hi1 Hr). apply initial_state_Owner. }
  split; [apply get_owner_ok; assumption|].
  intros ctx. rewrite is_owner_eq, Ho. f_equal.
  apply bool_decide_ext. split; [intros [= ->]|intros ->]; reflexivity.
Qed.

(** *** The donation log *)

Lemma invoke_donations c ctx st :
  donations (invoke c ctx st) = donations st \/
  exists amount,
    c = call_on_donation_sent amount /\
    donations (invoke c ctx st) =
    PersistentSet_add
      (mkDonation (predecessor ctx) amount (blockTimestamp ctx)) (donations st).
Proof.
  destruct c as [owner| |amount|amount|amount| | |]; simpl.
  - destruct (init_state ctx owner st) as [->|[_ ->]]; auto.
  - rewrite send_donation_state. auto.
  - destruct (on_donation_sent_state ctx amount st) as [->|(b & _ & _ & ->)];
      [auto|]. right. exists amount. auto.
  - destruct (withdraw_donations_state ctx amount st)
      as [->|(b & _ & _ & _ & ->)]; auto.
  - destruct (on_donations_withdrawn_state ctx amount st)
      as [->|(b & _ & _ & ->)]; auto.
  - rewrite get_donations_state. auto.
  - rewrite get_owner_state. auto.
  - rewrite get_balance_state. auto.
Qed.

Lemma PersistentSet_add_length d l :
  (length l <= length (PersistentSet_add d l) <= S (length l))%nat.
Proof.
  destruct (decide (d ∈ l)) as [H|H].
  - rewrite PersistentSet_add_present by assumption. lia.
  - rewrite PersistentSet_add_fresh by assumption.
    rewrite length_app. simpl. lia.
Qed.

(** X6. The donation log is append-only: an entry call never removes a
    stored record, stores no record twice and adds at most one, and only
    [on_donation_sent] changes the log at all. *)
Theorem donation_log_append_only c ctx st :
  NoDup (donations st) ->
  (forall d, d ∈ donations st -> d ∈ donations (invoke c ctx st)) /\
  NoDup (donations (invoke c ctx st)) /\
  (length (donations st) <= length (donations (invoke c ctx st))
   <= S (length (donations st)))%nat /\
  (donations (invoke c ctx st) <> donations st ->
   exists amount, c = call_on_donation_sent amount).
Proof.
  intros Hn.
  destruct (invoke_donations c ctx st) as [E|(amount & -> & E)]; rewrite E.
  - split; [auto|]. split; [exact Hn|]. split; [lia|]. intros H. contradiction.
  - split; [intros d; apply PersistentSet_add_mono|].
    split; [apply PersistentSet_add_NoDup, Hn|].
    split; [apply PersistentSet_add_length|]. eauto.
Qed.

(** *** Rejections *)

Lemma u128_ge_false a b : a < b -> u128.ge a b = false.
Proof. intros H. unfold u128.ge. apply Z.leb_gt, H. Qed.

(** X7. [send_donation] reports its first failing check: a contract not
    initialised, then a deposit below the minimum donation; when it
    returns normally both checks passed and the fee divisor is not
    zero. *)
Theorem send_donation_rejections ctx st :
  (~ initialized st ->
   send_donation ctx st = Abort "Contract must be initialized first.") /\
  (initialized st -> attachedDeposit ctx < MIN_DONATION_AMOUNT ->
   send_donation ctx st = Abort "Minimum donation must be attached (1 NEAR)") /\
  (forall st' out, send_donation ctx st = Ok tt st' out ->
   initialized st /\ MIN_DONATION_AMOUNT <= attachedDeposit ctx /\
   PLATFORM_FEE_DIVISOR <> 0).
Proof.
  split; [|split].
  - intros Hn. unfold send_donation, bind.
    rewrite (assert_initialized_abort _ Hn). reflexivity.
  - intros Hi Hlt. unfold send_donation, bind.
    rewrite (assert_initialized_ok _ Hi), (u128_ge_false _ _ Hlt). reflexivity.
  - intros st' out H. unfold send_donation, bind in H.
    destruct (initialized_dec st) as [Hi|Hi];
      [rewrite (assert_initialized_ok _ Hi) in H
      | rewrite (assert_initialized_abort _ Hi) in H; discriminate].
    split; [exact Hi|]. unfold u128.ge in H.
    destruct (Z.leb_spec MIN_DONATION_AMOUNT (attachedDeposit ctx)) as [Hm|Hm];
      [|discriminate].
    split; [exact Hm|]. simpl in H. unfold u128_div, u128.div in H.
    destruct (Z.eqb_spec PLATFORM_FEE_DIVISOR 0) as [Hz|Hz];
      [discriminate | exact Hz].
Qed.

(** X8. [withdraw_donations] reports its first failing check, in the
    order: contract initialised, caller is the owner, amount at least the
    minimum withdrawal, amount at most Balance. *)
Theorem withdraw_donations_rejections ctx amount st :
  (~ initialized st ->
   withdraw_donations ctx amount st =
   Abort "Contract must be initialized first.") /\
  (initialized st -> Owner st <> Some (predecessor ctx) ->
   withdraw_donations ctx amount st =
   Abort "Must be called by owner. e.g. myorg.near if your donation account is myorg.donate.near") /\
  (initialized st -> Owner st = Some (predecessor ctx) ->
   amount < MIN_WITHDRAWAL_AMOUNT ->
   withdraw_donations ctx amount st =
   Abort "Attempting to withdraw less than minimum amount (1 NEAR)") /\
  (forall b, initialized st -> Owner st = Some (predecessor ctx) ->
   MIN_WITHDRAWAL_AMOUNT <= amount -> Balance st = Some b -> b < amount ->
   withdraw_donations ctx amount st =
   Abort "Attempting to withdraw more than donation balance.").
Proof.
  split; [|split; [|split]].
  - intros Hn. unfold withdraw_donations, bind.
    rewrite (assert_initialized_abort _ Hn). reflexivity.
  - intros Hi Ho. unfold withdraw_donations, assert_signed_by_owner, bind.
    rewrite (assert_initialized_ok _ Hi), is_owner_eq.
    rewrite bool_decide_eq_false_2 by congruence. reflexivity.
  - intros Hi Ho Hlt. unfold withdraw_donations, assert_signed_by_owner, bind.
    rewrite (assert_initialized_ok _ Hi), is_owner_eq, Ho.
    rewrite bool_decide_eq_true_2 by reflexivity. simpl.
    rewrite (u128_ge_false _ _ Hlt). reflexivity.
  - intros b Hi Ho Hm Hb Hlt.
    unfold withdraw_donations, assert_signed_by_owner, bind.
    rewrite (assert_initialized_ok _ Hi), is_owner_eq, Ho.
    rewrite bool_decide_eq_true_2 by reflexivity. simpl.
    rewrite (u128_ge_true _ _ Hm). simpl.
    rewrite (getSome_balance _ _ Hb). unfold u128.le.
    rewrite (proj2 (Z.leb_gt _ _) Hlt). reflexivity.
Qed.

(** X9. [init] reports its first failing check, in the order: not yet
    initialised, minimum account balance attached, owner id valid. *)
Theorem init_rejections ctx owner st :
  (initialized st ->
   init ctx owner st = Abort "Contract is already initialized.") /\
  (~ initialized st -> attachedDeposit ctx < MIN_ACCOUNT_BALANCE ->
   init ctx owner st =
   Abort "Minimum account balance must be attached to initialize this contract (3 NEAR)") /\
  (~ initialized st -> MIN_ACCOUNT_BALANCE <= attachedDeposit ctx ->
   isValidAccountID owner = false ->
   init ctx owner st = Abort "Owner account must have valid NEAR account name").
Proof.
  assert (~ initialized st ->
          is_initialized st = Ok false st []) as Hfalse.
  { intros Hn. unfold initialized in Hn. rewrite is_initialized_eq in *.
    destruct (_ && _); [contradiction Hn; reflexivity | reflexivity]. }
  split; [|split].
  - intros Hi. unfold init, bind. rewrite Hi. reflexivity.
  - intros Hn Hlt. unfold init, bind. rewrite (Hfalse Hn). simpl.
    rewrite (u128_ge_false _ _ Hlt). reflexivity.
  - intros Hn Hd Hv. unfold init, bind. rewrite (Hfalse Hn). simpl.
    rewrite (u128_ge_true _ _ Hd), Hv. reflexivity.
Qed.

(** X10. A callback cannot write when it has nothing to confirm: called
    without any promise result it aborts, and under its mutating status on
    a contract not initialised it aborts as well; either way the state
    stays as it was. *)
Theorem callback_aborts cb ctx amount st :
  promiseResults ctx = [] \/
  (~ initialized st /\ head (promiseResults ctx) = Some (mutating_status cb)) ->
  (exists msg, run_callback cb ctx amount st = Abort msg) /\
  state_after (run_callback cb ctx amount) st = st.
Proof.
  intros H.
  assert (exists msg, run_callback cb ctx amount st = Abort msg) as [msg E].
  { destruct H as [Hr|[Hn Hr]].
    - destruct cb; simpl; unfold on_donation_sent, on_donations_withdrawn,
        bind, first_result; rewrite Hr; eauto.
    - destruct (promiseResults ctx) as [|status rest] eqn:Hp; [discriminate|].
      injection Hr as ->.
      destruct cb; simpl; unfold on_donation_sent, on_donations_withdrawn, bind;
        rewrite (first_result_cons _ _ _ _ Hp); simpl;
        unfold get_balance, bind; rewrite (assert_initialized_abort _ Hn); eauto. }
  split; [eauto|]. unfold state_after. rewrite E. reflexivity.
Qed.

(** *** What is emitted *)

Lemma on_donation_sent_other_log ctx amount st status rest :
  promiseResults ctx = status :: rest -> status <> 1 ->
  exists msg, on_donation_sent ctx amount st = Ok tt st [Log msg].
Proof.
  intros Hr Hs. unfold on_donation_sent, bind.
  rewrite (first_result_cons _ _ _ _ Hr).
  destruct status as [|p|p]; [| destruct p as [p|p|] |];
    try (eexists; reflexivity).
  - destruct p; eexists; reflexivity.
  - contradiction Hs; reflexivity.
Qed.

Lemma on_donations_withdrawn_other_log ctx amount st status rest :
  promiseResults ctx = status :: rest -> status <> 2 ->
  exists msg, on_donations_withdrawn ctx amount st = Ok tt st [Log msg].
Proof.
  intros Hr Hs. unfold on_donations_withdrawn, bind.
  rewrite (first_result_cons _ _ _ _ Hr).
  destruct status as [|p|p]; [| destruct p as [p|p|] |];
    try (eexists; reflexivity).
  destruct p; try (eexists; reflexivity). contradiction Hs; reflexivity.
Qed.

(** X11. Funds leave only through [send_donation] and
    [withdraw_donations]: whenever [init] or a callback returns normally,
    it has emitted one log line and no promise, so no call and no
    transfer was scheduled. *)
Theorem only_logs_emitted ctx st :
  (forall owner st' out,
     init ctx owner st = Ok tt st' out -> exists msg, out = [Log msg]) /\
  (forall amount st' out,
     on_donation_sent ctx amount st = Ok tt st' out ->
     exists msg, out = [Log msg]) /\
  (forall amount st' out,
     on_donations_withdrawn ctx amount st = Ok tt st' out ->
     exists msg, out = [Log msg]).
Proof.
  split; [|split].
  - intros owner st' out H.
    pose proof (init_inv _ _ _ _ _ H) as (Hn & Hd & Hv & _).
    rewrite (init_ok _ _ _ Hn Hd Hv) in H. injection H as _ <-. eauto.
  - intros amount st' out H.
    destruct (promiseResults ctx) as [|status rest] eqn:Hr.
    { unfold on_donation_sent, bind, first_result in H. rewrite Hr in H.
      discriminate. }
    destruct (decide (status = 1)) as [->|Hs].
    + destruct (on_donation_sent_success_inv _ _ _ _ _ _ Hr H)
        as (Hi & b & Hb & Hp).
      rewrite (on_donation_sent_success _ _ _ _ _ Hr Hi Hb Hp) in H.
      injection H as _ <-. eauto.
    + destruct (on_donation_sent_other_log _ amount st _ _ Hr Hs) as [msg E].
      rewrite E in H. injection H as _ <-. eauto.
  - intros amount st' out H.
    destruct (promiseResults ctx) as [|status rest] eqn:Hr.
    { unfold on_donations_withdrawn, bind, first_result in H. rewrite Hr in H.
      discriminate. }
    destruct (decide (status = 2)) as [->|Hs].
    + destruct (on_donations_withdrawn_failure_inv _ _ _ _ _ _ Hr H)
        as (Hi & b & Hb & Hp).
      rewrite (on_donations_withdrawn_failure _ _ _ _ _ Hr Hi Hb Hp) in H.
      injection H as _ <-. eauto.
    + destruct (on_donations_withdrawn_other_log _ amount st _ _ Hr Hs) as [msg E].
      rewrite E in H. injection H as _ <-. eauto.
Qed.

(** *** Composition *)

(** X12. Two withdrawals in a row, neither yet confirmed, cannot take out
    more than Balance held: the second passes its check against the
    Balance the first has already debited. *)
Theorem withdrawals_bounded ctx1 ctx2 a1 a2 st st1 st2 out1 out2 b :
  Balance st = Some b ->
  u128.in_range b -> u128.in_range a1 -> u128.in_range a2 ->
  withdraw_donations ctx1 a1 st = Ok tt st1 out1 ->
  withdraw_donations ctx2 a2 st1 = Ok tt st2 out2 ->
  a1 + a2 <= b /\ Balance st2 = Some (b - a1 - a2).
Proof.
  intros Hb Hrb Hr1 Hr2 H1 H2. unfold u128.in_range in *.
  apply withdraw_donations_inv in H1 as (_ & _ & _ & b1 & Hb1 & Hle1 & ->).
  rewrite Hb in Hb1. injection Hb1 as <-.
  apply withdraw_donations_inv in H2 as (_ & _ & _ & b2 & Hb2 & Hle2 & ->).
  unfold debited in Hb2 at 1. rewrite set_balance_Balance in Hb2.
  injection Hb2 as <-.
  unfold u128.sub in Hle2 at 1.
  rewrite wrap_small in Hle2 by (unfold u128.in_range; lia).
  split; [lia|]. unfold debited at 1. rewrite set_balance_Balance. f_equal.
  unfold u128.sub. rewrite (wrap_small (b - a1)) by (unfold u128.in_range; lia).
  apply wrap_small. unfold u128.in_range. lia.
Qed.

(** X13. A fresh contract end to end: [init], one donation whose
    fee-forward succeeds, then the owner withdrawing the whole net amount
    with the transfer succeeding. Every step returns normally, Balance ends
    at zero and the donation log holds the one record of the confirmed
    donation. *)
Theorem donation_then_withdrawal ctx_i owner ctx_d now1 ctx_w now2 :
  MIN_ACCOUNT_BALANCE <= attachedDeposit ctx_i ->
  isValidAccountID owner = true ->
  u128.in_range (attachedDeposit ctx_d) ->
  MIN_DONATION_AMOUNT <= attachedDeposit ctx_d ->
  0 < PLATFORM_FEE_DIVISOR ->
  MIN_WITHDRAWAL_AMOUNT <=
    attachedDeposit ctx_d - attachedDeposit ctx_d / PLATFORM_FEE_DIVISOR ->
  predecessor ctx_w = owner ->
  let net := attachedDeposit ctx_d - attachedDeposit ctx_d / PLATFORM_FEE_DIVISOR in
  let cb1 := callback_context ctx_d (contractName ctx_d) u128.Zero now1 1 in
  let cb2 := callback_context ctx_w (contractName ctx_w) u128.Zero now2 1 in
  exists st1 st2 st3 out1 out2 out3 out4 out5,
    init ctx_i owner empty_state = Ok tt st1 out1 /\
    send_donation ctx_d st1 = Ok tt st1 out2 /\
    on_donation_sent cb1 net st1 = Ok tt st2 out3 /\
    get_balance st2 = Ok net st2 [] /\
    withdraw_donations ctx_w net st2 = Ok tt st3 out4 /\
    on_donations_withdrawn cb2 net st3 = Ok tt st3 out5 /\
    get_balance st3 = Ok 0 st3 [] /\
    get_owner st3 = Ok owner st3 [] /\
    get_donations st3 =
      Ok [mkDonation (contractName ctx_d) net now1] st3 [].
Proof.
  intros Hstake Hvalid Hdep Hmin Hdiv Hw Howner net cb1 cb2.
  assert (0 <= attachedDeposit ctx_d / PLATFORM_FEE_DIVISOR
          <= attachedDeposit ctx_d) as Hfee.
  { destruct Hdep as [H0 _]. split.
    - apply Z.div_pos; lia.
    - apply Z.div_le_upper_bound; nia. }
  assert (u128.in_range net) as Hnet.
  { unfold net, u128.in_range in *. lia. }
  assert (~ initialized empty_state) as Hn.
  { intros [[v Hv] _]%initialized_iff. simpl in Hv. rewrite lookup_empty in Hv.
    discriminate. }
  set (st1 := initial_state empty_state owner).
  assert (initialized st1) as Hi1 by apply initial_state_initialized.
  assert (Balance st1 = Some 0) as Hb1 by apply initial_state_Balance.
  set (d := mkDonation (contractName ctx_d) net now1).
  set (st2 := mkState (<[BALANCE_STORAGE_KEY := VU128 (u128.add 0 net)]>
                         (storage st1)) [d]).
  assert (u128.add 0 net = net) as Hadd.
  { unfold u128.add. apply wrap_small. exact Hnet. }
  assert (initialized st2) as Hi2.
  { unfold st2. apply set_balance_initialized, Hi1. }
  assert (Balance st2 = Some net) as Hb2.
  { unfold st2. rewrite set_balance_Balance, Hadd. reflexivity. }
  assert (Owner st2 = Some owner) as Ho2.
  { unfold st2. rewrite set_balance_Owner. apply initial_state_Owner. }
  set (st3 := debited st2 net net).
  assert (u128.sub net net = 0) as Hsub.
  { unfold u128.sub. rewrite Z.sub_diag. reflexivity. }
  assert (initialized st3) as Hi3.
  { unfold st3, debited. apply set_balance_initialized, Hi2. }
  assert (Balance st3 = Some 0) as Hb3.
  { unfold st3, debited. rewrite set_balance_Balance, Hsub. reflexivity. }
  assert (Owner st3 = Some owner) as Ho3.
  { unfold st3, debited. rewrite set_balance_Owner. exact Ho2. }
  destruct (on_donations_withdrawn_other_log cb2 net st3 1 [] eq_refl)
    as [msg E]; [discriminate|].
  exists st1, st2, st3. do 5 eexists.
  split; [apply init_ok; assumption|].
  split; [apply send_donation_ok; (assumption || lia)|].
  split.
  { rewrite (on_donation_sent_success cb1 net st1 0 [] eq_refl Hi1 Hb1);
      [reflexivity|]. apply add_fits. unfold u128.in_range in Hnet. lia. }
  split; [apply get_balance_ok; assumption|].
  split.
  { apply withdraw_donations_ok; try assumption; [|lia].
    rewrite Howner. exact Ho2. }
  split; [exact E|].
  split; [apply get_balance_ok; assumption|].
  split; [apply get_owner_ok; assumption|].
  rewrite (get_donations_ok _ Hi3). reflexivity.
Qed.

Lemma Balance_set (m : gmap string value) a ds :
  Balance (mkState (<[BALANCE_STORAGE_KEY := VU128 a]> m) ds) = Some a.
Proof. unfold Balance; simpl. rewrite lookup_insert_eq. reflexivity. Qed.

(** X14. Compensation composes with crediting: when a donation is
    confirmed between a withdrawal and the Failure callback of that
    withdrawal, the callback still gives back exactly the amount debited,
    and Balance ends at its value before the withdrawal plus the donation
    (their sum fitting in 128 bits). *)
Theorem compensation_after_credit
    ctx_w a st b st1 out1 cb_d n rest_d st2 out2 cb_f rest_f st3 out3 :
  Balance st = Some b ->
  u128.in_range b -> u128.in_range a -> u128.in_range n ->
  b + n < u128.modulus ->
  withdraw_donations ctx_w a st = Ok tt st1 out1 ->
  promiseResults cb_d = 1 :: rest_d ->
  on_donation_sent cb_d n st1 = Ok tt st2 out2 ->
  promiseResults cb_f = 2 :: rest_f ->
  on_donations_withdrawn cb_f a st2 = Ok tt st3 out3 ->
  Balance st1 = Some (b - a) /\
  Balance st2 = Some (b - a + n) /\
  Balance st3 = Some (b + n).
Proof.
  intros Hb Hrb Hra Hrn Hfit H1 Hd H2 Hf H3. unfold u128.in_range in *.
  apply withdraw_donations_inv in H1 as (_ & _ & _ & b0 & Hb0 & Hle & ->).
  rewrite Hb in Hb0. injection Hb0 as <-.
  assert (Balance (debited st b a) = Some (b - a)) as Hb1.
  { unfold debited. rewrite set_balance_Balance. f_equal.
    unfold u128.sub. apply wrap_small. unfold u128.in_range. lia. }
  destruct (on_donation_sent_success_inv _ _ _ _ _ _ Hd H2) as (Hi1 & _).
  rewrite (on_donation_sent_success _ _ _ _ _ Hd Hi1 Hb1) in H2
    by (apply add_fits; lia).
  injection H2 as <- _.
  match goal with
  | |- _ /\ Balance ?s = _ /\ _ => set (st2 := s) in *
  end.
  assert (Balance st2 = Some (b - a + n)) as Hb2.
  { unfold st2, credited; simpl. rewrite Balance_set. f_equal.
    unfold u128.add. apply wrap_small. unfold u128.in_range. lia. }
  destruct (on_donations_withdrawn_failure_inv _ _ _ _ _ _ Hf H3) as (Hi2 & _).
  rewrite (on_donations_withdrawn_failure _ _ _ _ _ Hf Hi2 Hb2) in H3
    by (apply add_fits; lia).
  injection H3 as <- _.
  split; [exact Hb1|]. split; [exact Hb2|].
  unfold credited. rewrite Balance_set. f_equal.
  unfold u128.add. rewrite wrap_small by (unfold u128.in_range; lia). lia.
Qed.

End Contract.

(** ** The theorems at work on the sample deployment *)

Import Sample.

Ltac refute := let H := fresh in intros H; discriminate H.

Ltac concrete :=
  vm_compute; first [reflexivity | refute | split; [refute | reflexivity]].

(** [ready] is what [init] leaves, [full] what one credit of [max_u128]
    by an arbitrary caller makes of it. *)
Lemma ready_reachable :
  reachable MIN_ACCOUNT_BALANCE MIN_DONATION_AMOUNT MIN_WITHDRAWAL_AMOUNT
    PLATFORM_FEE_DIVISOR XCC_GAS asNEAR isValidAccountID overflow_guard ready.
Proof.
  change ready with
    (invoke MIN_ACCOUNT_BALANCE MIN_DONATION_AMOUNT MIN_WITHDRAWAL_AMOUNT
       PLATFORM_FEE_DIVISOR XCC_GAS asNEAR isValidAccountID overflow_guard
       (call_init owner_id) init_ctx empty_state).
  apply reachable_step; [apply reachable_refl | exact I].
Defined.

Lemma full_reachable :
  reachable MIN_ACCOUNT_BALANCE MIN_DONATION_AMOUNT MIN_WITHDRAWAL_AMOUNT
    PLATFORM_FEE_DIVISOR XCC_GAS asNEAR isValidAccountID overflow_guard full.
Proof.
  change full with
    (invoke MIN_ACCOUNT_BALANCE MIN_DONATION_AMOUNT MIN_WITHDRAWAL_AMOUNT
       PLATFORM_FEE_DIVISOR XCC_GAS asNEAR isValidAccountID overflow_guard
       (call_on_donation_sent max_u128) (mallory_ctx 1) ready).
  apply reachable_step; [apply ready_reachable | concrete].
Defined.

(** C1, witness: the donation of [donate_ctx], confirmed on [ready]. *)
Lemma donation_flow_success_witness :
  exists st3 out d,
    on_donation_sent asNEAR overflow_guard (callback_context donate_ctx contract_id 0 2001 1)
      net ready = Ok tt st3 out /\
    Balance st3 = Some net /\ amount d = net /\ donations st3 = [d].
Proof.
  assert (initialized ready) as Hi by reflexivity.
  assert (u128.in_range (attachedDeposit donate_ctx)) as Hdep by concrete.
  assert (MIN_DONATION_AMOUNT <= attachedDeposit donate_ctx) as Hmin by concrete.
  assert (0 < PLATFORM_FEE_DIVISOR) as Hdiv by concrete.
  assert (Balance ready = Some 0) as Hb0 by reflexivity.
  assert (u128.in_range 0) as Hr0 by concrete.
  assert (0 + (attachedDeposit donate_ctx
               - attachedDeposit donate_ctx / PLATFORM_FEE_DIVISOR)
          < u128.modulus) as Hfit by concrete.
  destruct (donation_flow_success MIN_DONATION_AMOUNT PLATFORM_FEE_DIVISOR
              XCC_GAS asNEAR overflow_guard donate_ctx ready 2001 ready 0
              Hi Hdep Hmin Hdiv Hi Hb0 Hr0 Hfit)
    as [_ (st3 & out & d & H & Hb & _ & Hd & _ & Hfresh & _)].
  exists st3, out, d. split; [exact H|]. split; [exact Hb|].
  split; [exact Hd|]. apply Hfresh. intros Hin. inversion Hin.
Defined.

(** C1, as stated, fails on the code. In the flow started by
    [alice.near] at block time 2000 and confirmed at block time 2001 the
    record stored names the contract itself as donor and carries the block
    time of the callback; a second, equal confirmation in the same block
    appends no record; and on a Balance of [max_u128] the confirmation
    aborts in the addition, so that nothing is credited and no record
    stored, and whatever the overflow guard of the library does there, no
    outcome has Balance increased by the net amount. *)
Lemma donation_flow_counterexample :
  let cb := callback_context donate_ctx contract_id 0 2001 1 in
  send_donation MIN_DONATION_AMOUNT PLATFORM_FEE_DIVISOR XCC_GAS donate_ctx ready =
    Ok tt ready
      [PromiseCreate "donate.near"
         (function_call "deposit_fees" EmptyArgs ONE_NEAR XCC_GAS);
       PromiseThen contract_id
         (function_call "on_donation_sent" (DonationSentArgs net) 0 XCC_GAS)] /\
  (exists out,
     on_donation_sent asNEAR overflow_guard cb net ready = Ok tt funded out /\
     donations funded = [mkDonation contract_id net 2001] /\
     mkDonation "alice.near" net 2000 ∉ donations funded) /\
  (exists st' out,
     on_donation_sent asNEAR overflow_guard cb net funded = Ok tt st' out /\
     donations st' = donations funded /\
     Balance st' = Some (net + net)) /\
  (Balance full = Some max_u128 /\
   on_donation_sent asNEAR overflow_guard cb net full
   = Abort "Overflow during addision" /\
   ~ exists guard st' out,
       on_donation_sent asNEAR guard cb net full = Ok tt st' out /\
       Balance st' = Some (max_u128 + net)).
Proof.
  intros cb. split; [vm_compute; reflexivity|]. split; [|split].
  - eexists. split; [vm_compute; reflexivity|]. split; [reflexivity|].
    intros Hin. apply list_elem_of_singleton in Hin. discriminate Hin.
  - do 2 eexists. split; [vm_compute; reflexivity|].
    split; vm_compute; reflexivity.
  - split; [reflexivity|]. split; [vm_compute; reflexivity|].
    intros (guard & st' & out & H & Hb).
    assert (promiseResults cb = [1]) as Hr by reflexivity.
    assert (initialized full) as Hi by reflexivity.
    assert (Balance full = Some max_u128) as Hb0 by reflexivity.
    destruct (on_donation_sent_success_inv asNEAR guard cb net full [] st' out
                Hr H) as (_ & b & Hb1 & Hp).
    rewrite Hb0 in Hb1. injection Hb1 as <-.
    rewrite (on_donation_sent_success asNEAR guard cb net full max_u128 []
               Hr Hi Hb0 Hp) in H.
    injection H as <- _. vm_compute in Hb. discriminate Hb.
Qed.

(** C2, witness: the owner withdraws the whole Balance of [funded]. *)
Lemma withdraw_flow_witness :
  exists st1,
    withdraw_donations MIN_WITHDRAWAL_AMOUNT XCC_GAS withdraw_ctx net funded =
      Ok tt st1
        [PromiseCreate owner_id (transfer net);
         PromiseThen contract_id
           (function_call "on_donations_withdrawn" (DonationsWithdrawnArgs net)
              0 XCC_GAS)] /\
    Balance st1 = Some 0 /\
    (exists out,
       on_donations_withdrawn asNEAR overflow_guard (mallory_ctx 2) net st1 = Ok tt funded out) /\
    (exists out,
       on_donations_withdrawn asNEAR overflow_guard (mallory_ctx 1) net st1 = Ok tt st1 out).
Proof.
  assert (initialized funded) as Hi by reflexivity.
  assert (Owner funded = Some (predecessor withdraw_ctx)) as Ho by reflexivity.
  assert (MIN_WITHDRAWAL_AMOUNT <= net) as Hmin by concrete.
  assert (u128.in_range net) as Hr by concrete.
  assert (Balance funded = Some net) as Hb0 by reflexivity.
  assert (net <= net) as Hle by concrete.
  destruct (withdraw_flow MIN_WITHDRAWAL_AMOUNT XCC_GAS asNEAR overflow_guard withdraw_ctx net
              funded net Hi Ho Hmin Hr Hb0 Hr Hle)
    as (st1 & H & Hb & Hfail & Hok).
  exists st1. split; [exact H|]. split; [exact Hb|]. split.
  - apply (Hfail (mallory_ctx 2) []). reflexivity.
  - apply (Hok (mallory_ctx 1) []). reflexivity.
Defined.

(** C3, witness: a failed fee-forward and an unexpected status code. *)
Lemma callback_other_status_frame_witness :
  (exists out, on_donation_sent asNEAR overflow_guard (mallory_ctx 2) net funded = Ok tt funded out) /\
  (exists out, on_donations_withdrawn asNEAR overflow_guard (mallory_ctx 7) net funded
               = Ok tt funded out).
Proof.
  split.
  - apply (callback_other_status_frame asNEAR overflow_guard cb_on_donation_sent
             (mallory_ctx 2) net funded 2 []); [reflexivity | discriminate].
  - apply (callback_other_status_frame asNEAR overflow_guard cb_on_donations_withdrawn
             (mallory_ctx 7) net funded 7 []); [reflexivity | discriminate].
Defined.

(** C4, witness: 100 NEAR attached, of which 1 NEAR is the fee. *)
Lemma fee_split_witness :
  exists fee net,
    send_donation MIN_DONATION_AMOUNT PLATFORM_FEE_DIVISOR XCC_GAS donate_ctx ready =
      Ok tt ready
        [PromiseCreate (get_factory donate_ctx)
           (function_call "deposit_fees" EmptyArgs fee XCC_GAS);
         PromiseThen (contractName donate_ctx)
           (function_call "on_donation_sent" (DonationSentArgs net)
              u128.Zero XCC_GAS)] /\
    fee = attachedDeposit donate_ctx / PLATFORM_FEE_DIVISOR /\
    net = attachedDeposit donate_ctx - fee /\
    fee + net = attachedDeposit donate_ctx /\
    0 <= fee /\
    fee * PLATFORM_FEE_DIVISOR <= attachedDeposit donate_ctx /\
    attachedDeposit donate_ctx < (fee + 1) * PLATFORM_FEE_DIVISOR.
Proof.
  assert (initialized ready) as Hi by reflexivity.
  assert (u128.in_range (attachedDeposit donate_ctx)) as Hdep by concrete.
  assert (MIN_DONATION_AMOUNT <= attachedDeposit donate_ctx) as Hmin by concrete.
  assert (0 < PLATFORM_FEE_DIVISOR) as Hdiv by concrete.
  exact (fee_split MIN_DONATION_AMOUNT PLATFORM_FEE_DIVISOR XCC_GAS donate_ctx
           ready Hi Hdep Hmin Hdiv).
Defined.



(** C6, witness: the donation of [donate_ctx] leaves [ready] as it is. *)
Lemma send_donation_frame_witness :
  exists out,
    send_donation MIN_DONATION_AMOUNT PLATFORM_FEE_DIVISOR XCC_GAS donate_ctx ready
    = Ok tt ready out.
Proof.
  assert (initialized ready) as Hi by reflexivity.
  assert (MIN_DONATION_AMOUNT <= attachedDeposit donate_ctx) as Hmin by concrete.
  assert (PLATFORM_FEE_DIVISOR <> 0) as Hdiv by concrete.
  exact (proj1 (send_donation_frame MIN_DONATION_AMOUNT PLATFORM_FEE_DIVISOR
                  XCC_GAS asNEAR overflow_guard donate_ctx ready Hi Hmin Hdiv)).
Defined.

(** C7, witness: [mallory.near] is not the owner of [funded]. *)
Lemma withdraw_donations_guard_witness :
  (exists msg,
     withdraw_donations MIN_WITHDRAWAL_AMOUNT XCC_GAS (mallory_ctx 0) net funded
     = Abort msg) /\
  state_after
    (withdraw_donations MIN_WITHDRAWAL_AMOUNT XCC_GAS (mallory_ctx 0) net) funded
  = funded.
Proof.
  assert (Owner funded <> Some (predecessor (mallory_ctx 0))) as Ho by concrete.
  apply (proj1 (withdraw_donations_guard MIN_WITHDRAWAL_AMOUNT XCC_GAS
                  (mallory_ctx 0) net funded)).
  right; left. exact Ho.
Defined.

(** C8, witness: [owner_id] initialises the empty state. *)
Lemma init_exactly_once_witness :
  (exists out,
     init MIN_ACCOUNT_BALANCE isValidAccountID init_ctx owner_id empty_state
     = Ok tt ready out) /\
  get_balance ready = Ok 0 ready [] /\
  init MIN_ACCOUNT_BALANCE isValidAccountID init_ctx owner_id ready
  = Abort "Contract is already initialized.".
Proof.
  assert (~ initialized empty_state) as Hn by concrete.
  assert (MIN_ACCOUNT_BALANCE <= attachedDeposit init_ctx) as Hd by concrete.
  assert (isValidAccountID owner_id = true) as Hv by reflexivity.
  destruct (init_exactly_once MIN_ACCOUNT_BALANCE MIN_DONATION_AMOUNT
              MIN_WITHDRAWAL_AMOUNT PLATFORM_FEE_DIVISOR XCC_GAS asNEAR
              isValidAccountID overflow_guard init_ctx owner_id empty_state Hn Hd Hv)
    as ((out & H & _ & _ & Hg) & Hlater & _).
  split; [exists out; exact H|]. split; [exact Hg|].
  exact (proj1 (Hlater ready init_ctx owner_id
                  (reachable_refl _ _ _ _ _ _ _ _ _))).
Defined.

(** C9, witness: the confirmation that made [funded], run once more. *)
Lemma donation_set_collapses_witness :
  let cb := callback_context donate_ctx contract_id 0 2001 1 in
  let d := mkDonation contract_id net 2001 in
  d ∈ donations funded /\
  length (filter (fun x => x = d) (donations funded)) = 1%nat /\
  exists st2 out2,
    on_donation_sent asNEAR overflow_guard cb net funded = Ok tt st2 out2 /\
    donations st2 = donations funded.
Proof.
  intros cb d.
  assert (well_formed ready) as Hwf.
  { exact (reachable_from_well_formed MIN_ACCOUNT_BALANCE MIN_DONATION_AMOUNT
             MIN_WITHDRAWAL_AMOUNT PLATFORM_FEE_DIVISOR XCC_GAS asNEAR
             isValidAccountID overflow_guard _ _ empty_state_well_formed
             ready_reachable). }
  assert (promiseResults cb = [1]) as Hr by reflexivity.
  assert (on_donation_sent asNEAR overflow_guard cb net ready
          = Ok tt funded [Log "Successfully received 99 NEAR donation"]) as H1
    by (vm_compute; reflexivity).
  assert (Balance funded = Some net) as Hb by reflexivity.
  assert (net + net < u128.modulus) as Hfit by concrete.
  destruct (donation_set_collapses MIN_ACCOUNT_BALANCE MIN_DONATION_AMOUNT
              MIN_WITHDRAWAL_AMOUNT PLATFORM_FEE_DIVISOR XCC_GAS asNEAR
              isValidAccountID overflow_guard cb cb net ready funded _ funded
              [] [] Hwf Hr Hr eq_refl eq_refl H1
              (reachable_refl _ _ _ _ _ _ _ _ _))
    as (Hd & Hcount & _ & _ & (b & Hb' & Hok)).
  split; [exact Hd|]. split; [exact Hcount|].
  rewrite Hb in Hb'. injection Hb' as <-. exact (Hok Hfit).
Defined.

(** C10, witness: [mallory.near] adds 1 NEAR to the Balance of [funded]. *)
Lemma callbacks_unauthenticated_witness :
  (exists st' out,
     on_donations_withdrawn asNEAR overflow_guard (mallory_ctx 2) ONE_NEAR funded
     = Ok tt st' out /\
     Balance st' = Some (net + ONE_NEAR)) /\
  (exists st' out,
     on_donation_sent asNEAR overflow_guard (mallory_ctx 1) ONE_NEAR funded
     = Ok tt st' out /\
     Balance st' = Some (net + ONE_NEAR) /\
     mkDonation "mallory.near" ONE_NEAR 4000 ∈ donations st').
Proof.
  assert (initialized funded) as Hi by reflexivity.
  assert (Balance funded = Some net) as Hb by reflexivity.
  assert (u128.in_range net) as Hrb by concrete.
  assert (u128.in_range ONE_NEAR) as Hra by concrete.
  assert (net + ONE_NEAR < u128.modulus) as Hfit by concrete.
  split.
  - destruct (proj1 (proj1 (callbacks_unauthenticated asNEAR overflow_guard
                              "mallory.near" (mallory_ctx 2) ONE_NEAR funded net
                              eq_refl Hi Hb Hrb Hra) Hfit) [] eq_refl)
      as (st' & out & H & Hsum).
    exists st', out. split; [exact H | exact Hsum].
  - destruct (proj2 (proj1 (callbacks_unauthenticated asNEAR overflow_guard
                              "mallory.near" (mallory_ctx 1) ONE_NEAR funded net
                              eq_refl Hi Hb Hrb Hra) Hfit) [] eq_refl)
      as (st' & out & H & Hsum & _ & Hin).
    exists st', out. split; [exact H|]. split; [exact Hsum | exact Hin].
Defined.

(** C10, as stated, fails on the code: called by [mallory.near] with
    [max_u128] under status Failure on [funded], [on_donations_withdrawn]
    does not succeed. It aborts in the addition and Balance stays at 99
    NEAR; whatever the overflow guard of the library does there, no
    outcome has Balance increased by the amount. *)
Lemma callbacks_unauthenticated_counterexample :
  Balance funded = Some net /\
  on_donations_withdrawn asNEAR overflow_guard (mallory_ctx 2) max_u128 funded
  = Abort "Overflow during addision" /\
  state_after
    (on_donations_withdrawn asNEAR overflow_guard (mallory_ctx 2) max_u128)
    funded = funded /\
  ~ exists guard st' out,
      on_donations_withdrawn asNEAR guard (mallory_ctx 2) max_u128 funded
      = Ok tt st' out /\
      Balance st' = Some (net + max_u128).
Proof.
  split; [reflexivity|]. split; [vm_compute; reflexivity|].
  split; [vm_compute; reflexivity|].
  intros (guard & st' & out & H & Hb).
  assert (promiseResults (mallory_ctx 2) = [2]) as Hr by reflexivity.
  assert (initialized funded) as Hi by reflexivity.
  assert (Balance funded = Some net) as Hb0 by reflexivity.
  destruct (on_donations_withdrawn_failure_inv asNEAR guard (mallory_ctx 2)
              max_u128 funded [] st' out Hr H) as (_ & b & Hb1 & Hp).
  rewrite Hb0 in Hb1. injection Hb1 as <-.
  rewrite (on_donations_withdrawn_failure asNEAR guard (mallory_ctx 2) max_u128
             funded net [] Hr Hi Hb0 Hp) in H.
  injection H as <- _. vm_compute in Hb. discriminate Hb.
Qed.

(** ** The further properties on the sample deployment *)

Lemma full_reachable_from_ready :
  reachable_from MIN_ACCOUNT_BALANCE MIN_DONATION_AMOUNT MIN_WITHDRAWAL_AMOUNT
    PLATFORM_FEE_DIVISOR XCC_GAS asNEAR isValidAccountID overflow_guard ready full.
Proof.
  change full with
    (invoke MIN_ACCOUNT_BALANCE MIN_DONATION_AMOUNT MIN_WITHDRAWAL_AMOUNT
       PLATFORM_FEE_DIVISOR XCC_GAS asNEAR isValidAccountID overflow_guard
       (call_on_donation_sent max_u128) (mallory_ctx 1) ready).
  apply reachable_step; [apply reachable_refl | concrete].
Defined.

(** X1, witness: the factory of [myorg.donate.near] is [donate.near]. *)
Lemma get_factory_parent_witness : get_factory donate_ctx = "donate.near"%string.
Proof.
  assert (contains "." "myorg" = false) as Hp by reflexivity.
  assert (contractName donate_ctx = ("myorg" ++ "." ++ "donate.near")%string)
    as Hn by reflexivity.
  exact (get_factory_parent donate_ctx "myorg" "donate.near" Hp Hn).
Defined.

(** X2, witness: a contract deployed at the top-level account [near]. *)
Lemma get_factory_top_level_witness :
  get_factory (mkContext 0 "alice.near" "near" 1 []) = ""%string.
Proof.
  assert (contains "." (contractName (mkContext 0 "alice.near" "near" 1 []))
          = false) as H by reflexivity.
  exact (get_factory_top_level _ H).
Defined.

(** X3, witness: queries on the empty storage. *)
Lemma queries_require_initialization_witness :
  get_balance empty_state = Abort "Contract must be initialized first." /\
  get_owner empty_state = Abort "Contract must be initialized first." /\
  get_donations empty_state = Abort "Contract must be initialized first.".
Proof.
  assert (~ initialized empty_state) as Hn by concrete.
  exact (queries_require_initialization empty_state Hn).
Defined.

(** X4, witness: queries on [full]. *)
Lemma queries_total_when_initialized_witness :
  exists b o,
    get_balance full = Ok b full [] /\ 0 <= b < u128.modulus /\
    get_owner full = Ok o full [] /\
    get_donations full = Ok (donations full) full [] /\
    NoDup (donations full).
Proof.
  assert (initialized full) as Hi by reflexivity.
  exact (queries_total_when_initialized MIN_ACCOUNT_BALANCE MIN_DONATION_AMOUNT
           MIN_WITHDRAWAL_AMOUNT PLATFORM_FEE_DIVISOR XCC_GAS asNEAR
           isValidAccountID overflow_guard full full_reachable Hi).
Defined.

(** X5, witness: [owner_id] is still the owner at [full]. *)
Lemma owner_is_immutable_witness :
  get_owner full = Ok owner_id full [] /\
  is_owner (mallory_ctx 2) full = Ok false full [] /\
  is_owner withdraw_ctx full = Ok true full [].
Proof.
  assert (init MIN_ACCOUNT_BALANCE isValidAccountID init_ctx owner_id empty_state
          = Ok tt ready [Log "donation account was created"]) as Hinit
    by (vm_compute; reflexivity).
  destruct (owner_is_immutable MIN_ACCOUNT_BALANCE MIN_DONATION_AMOUNT
              MIN_WITHDRAWAL_AMOUNT PLATFORM_FEE_DIVISOR XCC_GAS asNEAR
              isValidAccountID overflow_guard init_ctx owner_id empty_state ready _ full
              Hinit full_reachable_from_ready) as [Hg Hio].
  split; [exact Hg|]. split.
  - exact (Hio (mallory_ctx 2)).
  - exact (Hio withdraw_ctx).
Defined.

(** X6, witness: one more confirmation on [funded]. *)
Lemma donation_log_append_only_witness :
  mkDonation contract_id net 2001 ∈
  donations
    (invoke MIN_ACCOUNT_BALANCE MIN_DONATION_AMOUNT MIN_WITHDRAWAL_AMOUNT
       PLATFORM_FEE_DIVISOR XCC_GAS asNEAR isValidAccountID overflow_guard
       (call_on_donation_sent ONE_NEAR) (mallory_ctx 1) funded).
Proof.
  assert (NoDup (donations funded)) as Hn.
  { apply NoDup_singleton. }
  assert (mkDonation contract_id net 2001 ∈ donations funded) as Hin.
  { apply list_elem_of_singleton. reflexivity. }
  exact (proj1 (donation_log_append_only MIN_ACCOUNT_BALANCE MIN_DONATION_AMOUNT
                  MIN_WITHDRAWAL_AMOUNT PLATFORM_FEE_DIVISOR XCC_GAS asNEAR
                  isValidAccountID overflow_guard (call_on_donation_sent ONE_NEAR)
                  (mallory_ctx 1) funded Hn) _ Hin).
Defined.

(** X7, witness: half a NEAR attached. *)
Lemma send_donation_rejections_witness :
  send_donation MIN_DONATION_AMOUNT PLATFORM_FEE_DIVISOR XCC_GAS
    (mkContext (5 * 10 ^ 23) "alice.near" contract_id 2000 []) ready
  = Abort "Minimum donation must be attached (1 NEAR)".
Proof.
  assert (initialized ready) as Hi by reflexivity.
  assert (attachedDeposit (mkContext (5 * 10 ^ 23) "alice.near" contract_id 2000 [])
          < MIN_DONATION_AMOUNT) as Hlt by concrete.
  exact (proj1 (proj2 (send_donation_rejections MIN_DONATION_AMOUNT
                         PLATFORM_FEE_DIVISOR XCC_GAS _ ready)) Hi Hlt).
Defined.

(** X8, witness: [mallory.near] tries to withdraw from [funded]. *)
Lemma withdraw_donations_rejections_witness :
  withdraw_donations MIN_WITHDRAWAL_AMOUNT XCC_GAS (mallory_ctx 0) net funded
  = Abort "Must be called by owner. e.g. myorg.near if your donation account is myorg.donate.near".
Proof.
  assert (initialized funded) as Hi by reflexivity.
  assert (Owner funded <> Some (predecessor (mallory_ctx 0))) as Ho by concrete.
  exact (proj1 (proj2 (withdraw_donations_rejections MIN_WITHDRAWAL_AMOUNT XCC_GAS
                         (mallory_ctx 0) net funded)) Hi Ho).
Defined.

(** X9, witness: only 1 NEAR attached to [init]. *)
Lemma init_rejections_witness :
  init MIN_ACCOUNT_BALANCE isValidAccountID
    (mkContext ONE_NEAR owner_id contract_id 1000 []) owner_id empty_state
  = Abort "Minimum account balance must be attached to initialize this contract (3 NEAR)".
Proof.
  assert (~ initialized empty_state) as Hn by concrete.
  assert (attachedDeposit (mkContext ONE_NEAR owner_id contract_id 1000 [])
          < MIN_ACCOUNT_BALANCE) as Hlt by concrete.
  exact (proj1 (proj2 (init_rejections MIN_ACCOUNT_BALANCE isValidAccountID
                         _ owner_id empty_state)) Hn Hlt).
Defined.

(** X10, witness: [on_donations_withdrawn] called outside any promise. *)
Lemma callback_aborts_witness :
  (exists msg, on_donations_withdrawn asNEAR overflow_guard withdraw_ctx net funded = Abort msg) /\
  state_after (on_donations_withdrawn asNEAR overflow_guard withdraw_ctx net) funded = funded.
Proof.
  assert (promiseResults withdraw_ctx = []) as Hr by reflexivity.
  exact (callback_aborts asNEAR overflow_guard cb_on_donations_withdrawn withdraw_ctx net funded
           (or_introl Hr)).
Defined.

(** X11, witness: the confirmation that made [funded]. *)
Lemma only_logs_emitted_witness :
  exists msg,
    [Log "Successfully received 99 NEAR donation"] = [Log msg].
Proof.
  assert (on_donation_sent asNEAR overflow_guard
            (callback_context donate_ctx contract_id 0 2001 1) net ready
          = Ok tt funded [Log "Successfully received 99 NEAR donation"]) as H
    by (vm_compute; reflexivity).
  exact (proj1 (proj2 (only_logs_emitted MIN_ACCOUNT_BALANCE asNEAR
                         isValidAccountID overflow_guard _ ready)) net funded _ H).
Defined.

(** X12, witness: 40 NEAR, then 50 NEAR, out of the 99 NEAR of [funded]. *)
Lemma withdrawals_bounded_witness :
  40 * ONE_NEAR + 50 * ONE_NEAR <= net /\
  Balance (debited (debited funded net (40 * ONE_NEAR))
             (59 * ONE_NEAR) (50 * ONE_NEAR))
  = Some (net - 40 * ONE_NEAR - 50 * ONE_NEAR).
Proof.
  assert (Balance funded = Some net) as Hb by reflexivity.
  assert (u128.in_range net) as Hrb by concrete.
  assert (u128.in_range (40 * ONE_NEAR)) as Hr1 by concrete.
  assert (u128.in_range (50 * ONE_NEAR)) as Hr2 by concrete.
  assert (withdraw_donations MIN_WITHDRAWAL_AMOUNT XCC_GAS withdraw_ctx
            (40 * ONE_NEAR) funded
          = Ok tt (debited funded net (40 * ONE_NEAR))
              [PromiseCreate owner_id (transfer (40 * ONE_NEAR));
               PromiseThen contract_id
                 (function_call "on_donations_withdrawn"
                    (DonationsWithdrawnArgs (40 * ONE_NEAR)) 0 XCC_GAS)]) as H1
    by (vm_compute; reflexivity).
  assert (withdraw_donations MIN_WITHDRAWAL_AMOUNT XCC_GAS withdraw_ctx
            (50 * ONE_NEAR) (debited funded net (40 * ONE_NEAR))
          = Ok tt (debited (debited funded net (40 * ONE_NEAR))
                     (59 * ONE_NEAR) (50 * ONE_NEAR))
              [PromiseCreate owner_id (transfer (50 * ONE_NEAR));
               PromiseThen contract_id
                 (function_call "on_donations_withdrawn"
                    (DonationsWithdrawnArgs (50 * ONE_NEAR)) 0 XCC_GAS)]) as H2
    by (vm_compute; reflexivity).
  exact (withdrawals_bounded MIN_WITHDRAWAL_AMOUNT XCC_GAS withdraw_ctx
           withdraw_ctx _ _ funded _ _ _ _ net Hb Hrb Hr1 Hr2 H1 H2).
Defined.

(** X13, witness: the sample deployment from [init] to the withdrawal of
    the 99 NEAR. *)
Lemma donation_then_withdrawal_witness :
  exists st3,
    get_balance st3 = Ok 0 st3 [] /\
    get_owner st3 = Ok owner_id st3 [] /\
    get_donations st3 = Ok [mkDonation contract_id net 2001] st3 [].
Proof.
  assert (MIN_ACCOUNT_BALANCE <= attachedDeposit init_ctx) as Hstake by concrete.
  assert (isValidAccountID owner_id = true) as Hvalid by reflexivity.
  assert (u128.in_range (attachedDeposit donate_ctx)) as Hdep by concrete.
  assert (MIN_DONATION_AMOUNT <= attachedDeposit donate_ctx) as Hmin by concrete.
  assert (0 < PLATFORM_FEE_DIVISOR) as Hdiv by concrete.
  assert (MIN_WITHDRAWAL_AMOUNT <=
          attachedDeposit donate_ctx
          - attachedDeposit donate_ctx / PLATFORM_FEE_DIVISOR) as Hw by concrete.
  assert (predecessor withdraw_ctx = owner_id) as Ho by reflexivity.
  destruct (donation_then_withdrawal MIN_ACCOUNT_BALANCE MIN_DONATION_AMOUNT
              MIN_WITHDRAWAL_AMOUNT PLATFORM_FEE_DIVISOR XCC_GAS asNEAR
              isValidAccountID overflow_guard init_ctx owner_id donate_ctx 2001 withdraw_ctx
              3001 Hstake Hvalid Hdep Hmin Hdiv Hw Ho)
    as (st1 & st2 & st3 & o1 & o2 & o3 & o4 & o5 & _ & _ & _ & _ & _ & _
        & Hb & Hown & Hd).
  exists st3. split; [exact Hb|]. split; [exact Hown | exact Hd].
Defined.

(** X14, witness: the owner withdraws 40 NEAR from [funded], a donation
    of 1 NEAR is confirmed, then the transfer fails. *)
Lemma compensation_after_credit_witness :
  exists st3 out3,
    on_donations_withdrawn asNEAR overflow_guard (mallory_ctx 2) (40 * ONE_NEAR)
      (mkState
         (<["b" := VU128 (60 * ONE_NEAR)]> (storage funded))
         [mkDonation contract_id net 2001;
          mkDonation "mallory.near" ONE_NEAR 4000])
    = Ok tt st3 out3 /\
    Balance st3 = Some (net + ONE_NEAR).
Proof.
  assert (Balance funded = Some net) as Hb by reflexivity.
  assert (u128.in_range net) as Hrb by concrete.
  assert (u128.in_range (40 * ONE_NEAR)) as Hra by concrete.
  assert (u128.in_range ONE_NEAR) as Hrn by concrete.
  assert (net + ONE_NEAR < u128.modulus) as Hfit by concrete.
  assert (withdraw_donations MIN_WITHDRAWAL_AMOUNT XCC_GAS withdraw_ctx
            (40 * ONE_NEAR) funded
          = Ok tt (debited funded net (40 * ONE_NEAR))
              [PromiseCreate owner_id (transfer (40 * ONE_NEAR));
               PromiseThen contract_id
                 (function_call "on_donations_withdrawn"
                    (DonationsWithdrawnArgs (40 * ONE_NEAR)) 0 XCC_GAS)]) as H1
    by (vm_compute; reflexivity).
  assert (on_donation_sent asNEAR overflow_guard (mallory_ctx 1) ONE_NEAR
            (debited funded net (40 * ONE_NEAR))
          = Ok tt
              (mkState
                 (<["b" := VU128 (60 * ONE_NEAR)]> (storage funded))
                 [mkDonation contract_id net 2001;
                  mkDonation "mallory.near" ONE_NEAR 4000])
              [Log "Successfully received 1 NEAR donation"]) as H2
    by (vm_compute; reflexivity).
  assert (on_donations_withdrawn asNEAR overflow_guard (mallory_ctx 2) (40 * ONE_NEAR)
            (mkState
               (<["b" := VU128 (60 * ONE_NEAR)]> (storage funded))
               [mkDonation contract_id net 2001;
                mkDonation "mallory.near" ONE_NEAR 4000])
          = Ok tt
              (mkState
                 (<["b" := VU128 (100 * ONE_NEAR)]> (storage funded))
                 [mkDonation contract_id net 2001;
                  mkDonation "mallory.near" ONE_NEAR 4000])
              [Log "Donation withdrawal failed"]) as H3
    by (vm_compute; reflexivity).
  do 2 eexists. split; [exact H3|].
  exact (proj2 (proj2 (compensation_after_credit MIN_WITHDRAWAL_AMOUNT XCC_GAS
                         asNEAR overflow_guard withdraw_ctx (40 * ONE_NEAR) funded net _ _
                         (mallory_ctx 1) ONE_NEAR [] _ _ (mallory_ctx 2) [] _ _
                         Hb Hrb Hra Hrn Hfit H1 eq_refl H2 eq_refl H3))).
Defined.
